(** * Topology refactoring operators of the orchestrator (inst/instance_topology.go)

    A shallow embedding of the operators of [instance_topology.go].  The
    operators talk to the outside world only through package-level
    collaborators (inventory, prober, replication driver, pseudo-GTID
    matcher, maintenance locks, audit).  Each operator is therefore embedded
    as a program over the alphabet of collaborator calls; running a program
    against a handler for these calls threads the state of the outside world
    and records the ordered trace of calls together with their answers.

    Logging ([log.Infof], [log.Debugf]) is not a collaborator call and is left
    out; [log.Errore] returns the error it is given and [log.Errorf] the error
    it formats. *)

From Stdlib Require Import List String Ascii ZArith Bool Lia DecimalString.
Import ListNotations.
Open Scope list_scope.
Open Scope string_scope.

Set Implicit Arguments.

(** ** Data model *)

(** Go's [error] values of this file are all built by [errors.New] from a
    formatted message, or passed through from a collaborator. *)
Definition error := string.

(** [InstanceKey]: host and port. *)
Record InstanceKey : Type := mkKey { Hostname : string; Port : Z }.

(** Modelled from the spec: [InstanceKey.Equals] is declared outside this
    file; the spec says equality is value equality on both components. *)
Definition KeyEquals (a b : InstanceKey) : bool :=
  String.eqb (Hostname a) (Hostname b) && Z.eqb (Port a) (Port b).

(** Modelled from the spec: the ordering of node keys is declared outside
    this file; keys are ordered by host, then by port. *)
Definition KeyLess (a b : InstanceKey) : bool :=
  String.ltb (Hostname a) (Hostname b)
  || (String.eqb (Hostname a) (Hostname b) && Z.ltb (Port a) (Port b)).

(** [BinlogCoordinates]: log file name and offset. *)
Record BinlogCoordinates : Type := mkCoord { LogFile : string; LogPos : Z }.

(** Modelled from the spec: [BinlogCoordinates.SmallerThan] is declared
    outside this file; the spec orders coordinates first by file name, then by
    offset. *)
Definition SmallerThan (a b : BinlogCoordinates) : bool :=
  String.ltb (LogFile a) (LogFile b)
  || (String.eqb (LogFile a) (LogFile b) && Z.ltb (LogPos a) (LogPos b)).

(** Modelled from the spec: [BinlogCoordinates.Equals], value equality. *)
Definition CoordEquals (a b : BinlogCoordinates) : bool :=
  String.eqb (LogFile a) (LogFile b) && Z.eqb (LogPos a) (LogPos b).

(** The fields of [Instance] that this file reads.  Collaborators hand out
    [*Instance] pointers that the operators dereference on their error paths
    as well, so an [Instance] answer is never nil here. *)
Record Instance : Type := mkInstance {
  Key : InstanceKey;
  MasterKey : InstanceKey;
  SelfBinlogCoordinates : BinlogCoordinates;
  ExecBinlogCoordinates : BinlogCoordinates;
  IsLastCheckValid : bool
}.

Definition MaintenanceToken := Z.

(** Methods of [Instance] that are declared outside this file.  The
    eligibility predicates answer a boolean and a reason. *)
Class InstanceMethods : Type := {
  IsSlave : Instance -> bool;
  SlaveRunning : Instance -> bool;
  SQLThreadUpToDate : Instance -> bool;
  CanMove : Instance -> bool * option error;
  CanMoveAsCoMaster : Instance -> bool * option error;
  CanMoveViaMatch : Instance -> bool * option error;
  CanReplicateFrom : Instance -> Instance -> bool * option error;
  (** [%+v] of an [*Instance] *)
  fmtInstance : Instance -> string
}.

(** ** Formatting *)

Definition fmtInt (z : Z) : string := NilZero.string_of_int (Z.to_int z).

(** [%+v] of an [InstanceKey] value. *)
Definition fmtKey (k : InstanceKey) : string :=
  "{Hostname:" ++ Hostname k ++ " Port:" ++ fmtInt (Port k) ++ "}".

(** [%v] of an [InstanceKey] value. *)
Definition fmtKeyV (k : InstanceKey) : string :=
  "{" ++ Hostname k ++ " " ++ fmtInt (Port k) ++ "}".

(** [%+v] of an [*InstanceKey]. *)
Definition fmtKeyPtr (k : InstanceKey) : string := "&" ++ fmtKey k.

(** Modelled from the spec: [InstanceKey.DisplayString] is declared outside
    this file; the key is displayed as host and port. *)
Definition DisplayString (k : InstanceKey) : string :=
  Hostname k ++ ":" ++ fmtInt (Port k).

(** [strings.Repeat] *)
Fixpoint Repeat (s : string) (n : nat) : string :=
  match n with
  | O => ""
  | S n' => s ++ Repeat s n'
  end.

(** [strings.Join] *)
Fixpoint Join (a : list string) (sep : string) : string :=
  match a with
  | [] => ""
  | [x] => x
  | x :: rest => x ++ sep ++ Join rest sep
  end.

(** ** Collaborator calls *)

Inductive Call : Type :=
| ReadClusterInstances (clusterName : string)
| ReadTopologyInstance (instanceKey : InstanceKey)
| ReadInstance (instanceKey : InstanceKey)
| ReadSlaveInstances (masterKey : InstanceKey)
| BeginMaintenance (instanceKey : InstanceKey) (owner reason : string)
| EndMaintenance (maintenanceToken : MaintenanceToken)
| StopSlave (instanceKey : InstanceKey)
| StopSlaveNicely (instanceKey : InstanceKey)
| StartSlave (instanceKey : InstanceKey)
| StartSlaveUntilMasterCoordinates (instanceKey : InstanceKey)
    (masterCoordinates : BinlogCoordinates)
| ChangeMasterTo (instanceKey masterKey : InstanceKey)
    (masterBinlogCoordinates : BinlogCoordinates)
| ResetSlave (instanceKey : InstanceKey)
| SetReadOnly (instanceKey : InstanceKey) (readOnly : bool)
| GetLastPseudoGTIDEntryInInstance (instance : Instance)
| SearchPseudoGTIDEntryInInstance (instance : Instance) (entryText : string)
| GetNextBinlogCoordinatesToMatch (instance : Instance)
    (instanceCoordinates : BinlogCoordinates) (other : Instance)
    (otherCoordinates : BinlogCoordinates)
| AuditOperation (auditType : string) (instanceKey : InstanceKey)
    (message : string).

(** What each collaborator answers. *)
Definition Resp (c : Call) : Type :=
  match c with
  | ReadClusterInstances _ => (list Instance * option error)%type
  | ReadTopologyInstance _ => (Instance * option error)%type
  | ReadInstance _ => (Instance * bool * option error)%type
  | ReadSlaveInstances _ => (list Instance * option error)%type
  | BeginMaintenance _ _ _ => (MaintenanceToken * option error)%type
  | EndMaintenance _ => unit
  | StopSlave _ | StopSlaveNicely _ | StartSlave _
  | StartSlaveUntilMasterCoordinates _ _ | ChangeMasterTo _ _ _
  | ResetSlave _ | SetReadOnly _ _ => (Instance * option error)%type
  | GetLastPseudoGTIDEntryInInstance _ =>
      (BinlogCoordinates * string * option error)%type
  | SearchPseudoGTIDEntryInInstance _ _ => (BinlogCoordinates * option error)%type
  | GetNextBinlogCoordinatesToMatch _ _ _ _ =>
      (BinlogCoordinates * option error)%type
  | AuditOperation _ _ _ => unit
  end.

(** ** Programs over collaborator calls *)

Inductive Prog (A : Type) : Type :=
| Ret (a : A)
| Vis (c : Call) (k : Resp c -> Prog A).

Arguments Ret {A} a.
Arguments Vis {A} c k.

Fixpoint bind {A B : Type} (p : Prog A) (f : A -> Prog B) : Prog B :=
  match p with
  | Ret a => f a
  | Vis c k => Vis c (fun r => bind (k r) f)
  end.

Definition call (c : Call) : Prog (Resp c) := Vis c (fun r => Ret r).

Declare Scope prog_scope.
Delimit Scope prog_scope with prog.
Notation "x <- c1 ;; c2" := (bind c1 (fun x => c2))
  (at level 61, c1 at next level, right associativity) : prog_scope.
Notation "' pat <- c1 ;; c2" :=
  (bind c1 (fun x => match x with pat => c2 end))
  (at level 61, pat pattern, c1 at next level, right associativity) : prog_scope.
Notation "c1 ;; c2" := (bind c1 (fun _ => c2))
  (at level 61, right associativity) : prog_scope.
Open Scope prog_scope.

(** An event of the trace: a call and its answer. *)
Record Event : Type := Ev { ev_call : Call; ev_resp : Resp ev_call }.

(** A handler answers every call and moves the outside world. *)
Definition Handler (W : Type) : Type := forall c : Call, W -> Resp c * W.

Fixpoint run {W A : Type} (h : Handler W) (p : Prog A) (w : W)
  : A * W * list Event :=
  match p with
  | Ret a => (a, w, [])
  | Vis c k =>
      let (r, w1) := h c w in
      let '(a, w2, tr) := run h (k r) w1 in
      (a, w2, Ev c r :: tr)
  end.

Definition result {W A : Type} (x : A * W * list Event) : A := fst (fst x).
Definition world {W A : Type} (x : A * W * list Event) : W := snd (fst x).
Definition trace {W A : Type} (x : A * W * list Event) : list Event := snd x.
Definition calls (tr : list Event) : list Call := map ev_call tr.

(** ** Goroutines

    [enslaveSiblings] starts one goroutine per sibling and waits for all of
    them.  The goroutines only interact through their collaborator calls, so
    an execution is an interleaving of their calls; the scheduler's choices
    are a list of goroutine indices (a choice that names no goroutine, or a
    finished one, is skipped; when the list is used up the remaining
    goroutines run one after the other). *)

Definition Schedule := list nat.

Fixpoint replace_nth {A : Type} (n : nat) (x : A) (l : list A) : list A :=
  match l, n with
  | [], _ => []
  | _ :: l', O => x :: l'
  | y :: l', S n' => y :: replace_nth n' x l'
  end.

Fixpoint sequence_ (ps : list (Prog unit)) : Prog unit :=
  match ps with
  | [] => Ret tt
  | p :: ps' => p ;; sequence_ ps'
  end.

Fixpoint interleave (sched : Schedule) (ps : list (Prog unit)) : Prog unit :=
  match sched with
  | [] => sequence_ ps
  | n :: sched' =>
      match nth_error ps n with
      | Some (Vis c k) =>
          Vis c (fun r => interleave sched' (replace_nth n (k r) ps))
      | _ => interleave sched' ps
      end
  end.

(** ** The operators *)

Section Operators.

Context {IM : InstanceMethods}.

(** Deferred [EndMaintenance] calls run last-in first-out when the operator
    returns; the list holds the most recently deferred token first. *)
Fixpoint runDeferred (deferred : list MaintenanceToken) : Prog unit :=
  match deferred with
  | [] => Ret tt
  | t :: rest => call (EndMaintenance t) ;; runDeferred rest
  end.

Definition GetInstanceMaster (instance : Instance)
  : Prog (Instance * option error) :=
  call (ReadTopologyInstance (MasterKey instance)).

Definition InstancesAreSiblings (instance0 instance1 : Instance) : bool :=
  if negb (IsSlave instance0) then false
  else if negb (IsSlave instance1) then false
  else if KeyEquals (Key instance0) (Key instance1) then false
  else KeyEquals (MasterKey instance0) (MasterKey instance1).

Definition InstanceIsMasterOf (instance0 instance1 : Instance) : bool :=
  if negb (IsSlave instance1) then false
  else if KeyEquals (Key instance0) (Key instance1) then false
  else KeyEquals (Key instance0) (MasterKey instance1).

Definition cannotBeginMaintenance (k : InstanceKey) : error :=
  "Cannot begin maintenance on " ++ fmtKey k.

(** *** MoveUp *)

(** The [Cleanup:] label of [MoveUp]. *)
Definition MoveUp_Cleanup (instanceKey : InstanceKey)
    (deferred : list MaintenanceToken) (master : Instance)
    (err : option error) : Prog (Instance * option error) :=
  '(instance, _) <- call (StartSlave instanceKey) ;;
  '(master, _) <- call (StartSlave (Key master)) ;;
  match err with
  | Some e => runDeferred deferred ;; Ret (instance, Some e)
  | None =>
      call (AuditOperation "move-up" instanceKey
              ("moved up " ++ fmtKey instanceKey ++ ". Previous master: "
                 ++ fmtKey (Key master))) ;;
      runDeferred deferred ;;
      Ret (instance, err)
  end.

Definition MoveUp (instanceKey : InstanceKey) : Prog (Instance * option error) :=
  '(instance, err) <- call (ReadTopologyInstance instanceKey) ;;
  match err with
  | Some _ => Ret (instance, err)
  | None =>
  if negb (IsSlave instance) then
    Ret (instance, Some ("instance is not a slave: " ++ fmtKeyPtr instanceKey))
  else
  '(rinstance, _, _) <- call (ReadInstance (Key instance)) ;;
  let '(canMove, merr) := CanMove rinstance in
  if negb canMove then Ret (instance, merr) else
  '(master, err) <- GetInstanceMaster instance ;;
  match err with
  | Some e =>
      Ret (instance, Some ("Cannot GetInstanceMaster() for "
                             ++ fmtInstance instance ++ ". error=" ++ e))
  | None =>
  if negb (IsSlave master) then
    Ret (instance, Some ("master is not a slave itself: " ++ fmtKey (Key master)))
  else
  let '(canReplicate, cerr) := CanReplicateFrom instance master in
  if negb canReplicate then Ret (instance, cerr) else
  '(maintenanceToken, merr) <-
     call (BeginMaintenance instanceKey "orchestrator" "move up") ;;
  match merr with
  | Some _ =>
      MoveUp_Cleanup instanceKey [] master
        (Some (cannotBeginMaintenance instanceKey))
  | None =>
  let deferred := [maintenanceToken] in
  '(maintenanceToken, merr) <-
     call (BeginMaintenance (Key master) "orchestrator"
             ("child " ++ fmtKey instanceKey ++ " moves up")) ;;
  match merr with
  | Some _ =>
      MoveUp_Cleanup instanceKey deferred master
        (Some (cannotBeginMaintenance (Key master)))
  | None =>
  let deferred := maintenanceToken :: deferred in
  '(master, err) <- call (StopSlave (Key master)) ;;
  match err with
  | Some _ => MoveUp_Cleanup instanceKey deferred master err
  | None =>
  '(instance, err) <- call (StopSlave instanceKey) ;;
  match err with
  | Some _ => MoveUp_Cleanup instanceKey deferred master err
  | None =>
  '(instance, err) <-
     call (StartSlaveUntilMasterCoordinates instanceKey
             (SelfBinlogCoordinates master)) ;;
  match err with
  | Some _ => MoveUp_Cleanup instanceKey deferred master err
  | None =>
  '(instance, err) <-
     call (ChangeMasterTo instanceKey (MasterKey master)
             (ExecBinlogCoordinates master)) ;;
  MoveUp_Cleanup instanceKey deferred master err
  end end end end end end end.

(** *** MoveBelow *)

Definition MoveBelow_Cleanup (instanceKey siblingKey : InstanceKey)
    (deferred : list MaintenanceToken) (err : option error)
  : Prog (Instance * option error) :=
  '(instance, _) <- call (StartSlave instanceKey) ;;
  '(sibling, _) <- call (StartSlave siblingKey) ;;
  match err with
  | Some e => runDeferred deferred ;; Ret (instance, Some e)
  | None =>
      call (AuditOperation "move-below" instanceKey
              ("moved " ++ fmtKey instanceKey ++ " below " ++ fmtKey siblingKey)) ;;
      runDeferred deferred ;;
      Ret (instance, err)
  end.

(** The re-pointing step of [MoveBelow], reached after the equalisation. *)
Definition MoveBelow_ChangeMaster (instanceKey siblingKey : InstanceKey)
    (deferred : list MaintenanceToken) (sibling : Instance)
  : Prog (Instance * option error) :=
  '(instance, err) <-
     call (ChangeMasterTo instanceKey (Key sibling)
             (SelfBinlogCoordinates sibling)) ;;
  MoveBelow_Cleanup instanceKey siblingKey deferred err.

Definition MoveBelow (instanceKey siblingKey : InstanceKey)
  : Prog (Instance * option error) :=
  '(instance, err) <- call (ReadTopologyInstance instanceKey) ;;
  match err with
  | Some _ => Ret (instance, err)
  | None =>
  '(sibling, err) <- call (ReadTopologyInstance siblingKey) ;;
  match err with
  | Some _ => Ret (instance, err)
  | None =>
  '(rinstance, _, _) <- call (ReadInstance (Key instance)) ;;
  let '(canMove, merr) := CanMove rinstance in
  if negb canMove then Ret (instance, merr) else
  '(rinstance, _, _) <- call (ReadInstance (Key sibling)) ;;
  let '(canMove, merr) := CanMove rinstance in
  if negb canMove then Ret (instance, merr) else
  if negb (InstancesAreSiblings instance sibling) then
    Ret (instance, Some ("instances are not siblings: " ++ fmtKey instanceKey
                           ++ ", " ++ fmtKey siblingKey))
  else
  let '(canReplicate, cerr) := CanReplicateFrom instance sibling in
  if negb canReplicate then Ret (instance, cerr) else
  '(maintenanceToken, merr) <-
     call (BeginMaintenance instanceKey "orchestrator"
             ("move below " ++ fmtKey siblingKey)) ;;
  match merr with
  | Some _ =>
      MoveBelow_Cleanup instanceKey siblingKey []
        (Some (cannotBeginMaintenance instanceKey))
  | None =>
  let deferred := [maintenanceToken] in
  '(maintenanceToken, merr) <-
     call (BeginMaintenance siblingKey "orchestrator"
             (fmtKey instanceKey ++ " moves below this")) ;;
  match merr with
  | Some _ =>
      MoveBelow_Cleanup instanceKey siblingKey deferred
        (Some (cannotBeginMaintenance siblingKey))
  | None =>
  let deferred := maintenanceToken :: deferred in
  '(instance, err) <- call (StopSlave instanceKey) ;;
  match err with
  | Some _ => MoveBelow_Cleanup instanceKey siblingKey deferred err
  | None =>
  '(sibling, err) <- call (StopSlave siblingKey) ;;
  match err with
  | Some _ => MoveBelow_Cleanup instanceKey siblingKey deferred err
  | None =>
  if SmallerThan (ExecBinlogCoordinates instance) (ExecBinlogCoordinates sibling)
  then
    '(instance, err) <-
       call (StartSlaveUntilMasterCoordinates instanceKey
               (ExecBinlogCoordinates sibling)) ;;
    match err with
    | Some _ => MoveBelow_Cleanup instanceKey siblingKey deferred err
    | None => MoveBelow_ChangeMaster instanceKey siblingKey deferred sibling
    end
  else if SmallerThan (ExecBinlogCoordinates sibling)
            (ExecBinlogCoordinates instance)
  then
    '(sibling, err) <-
       call (StartSlaveUntilMasterCoordinates siblingKey
               (ExecBinlogCoordinates instance)) ;;
    match err with
    | Some _ => MoveBelow_Cleanup instanceKey siblingKey deferred err
    | None => MoveBelow_ChangeMaster instanceKey siblingKey deferred sibling
    end
  else MoveBelow_ChangeMaster instanceKey siblingKey deferred sibling
  end end end end end end.

(** *** MakeCoMaster *)

Definition MakeCoMaster_Cleanup (instanceKey : InstanceKey)
    (deferred : list MaintenanceToken) (instance master : Instance)
    (err : option error) : Prog (Instance * option error) :=
  '(master, _) <- call (StartSlave (Key master)) ;;
  match err with
  | Some e => runDeferred deferred ;; Ret (instance, Some e)
  | None =>
      call (AuditOperation "make-co-master" instanceKey
              (fmtKey instanceKey ++ " made co-master of " ++ fmtKey (Key master))) ;;
      runDeferred deferred ;;
      Ret (instance, err)
  end.

Definition MakeCoMaster (instanceKey : InstanceKey)
  : Prog (Instance * option error) :=
  '(instance, err) <- call (ReadTopologyInstance instanceKey) ;;
  match err with
  | Some _ => Ret (instance, err)
  | None =>
  '(master, err) <- GetInstanceMaster instance ;;
  match err with
  | Some _ => Ret (instance, err)
  | None =>
  '(rinstance, _, _) <- call (ReadInstance (Key master)) ;;
  let '(canMove, merr) := CanMoveAsCoMaster rinstance in
  if negb canMove then Ret (instance, merr) else
  '(rinstance, _, _) <- call (ReadInstance instanceKey) ;;
  let '(canMove, merr) := CanMove rinstance in
  if negb canMove then Ret (instance, merr) else
  if KeyEquals instanceKey (MasterKey master) then
    Ret (instance, Some ("instance  " ++ fmtKeyPtr instanceKey
                           ++ " is already co master of " ++ fmtKey (Key master)))
  else
  '(_, found, _) <- call (ReadInstance (MasterKey master)) ;;
  if (found : bool) then
    Ret (instance, Some ("master " ++ fmtKey (Key master)
                           ++ " already has known master: "
                           ++ fmtKey (MasterKey master)))
  else
  let '(canReplicate, cerr) := CanReplicateFrom master instance in
  if negb canReplicate then Ret (instance, cerr) else
  '(maintenanceToken, merr) <-
     call (BeginMaintenance instanceKey "orchestrator"
             ("make co-master of " ++ fmtKey (Key master))) ;;
  match merr with
  | Some _ =>
      MakeCoMaster_Cleanup instanceKey [] instance master
        (Some (cannotBeginMaintenance instanceKey))
  | None =>
  let deferred := [maintenanceToken] in
  '(maintenanceToken, merr) <-
     call (BeginMaintenance (Key master) "orchestrator"
             (fmtKey instanceKey ++ " turns into co-master of this")) ;;
  match merr with
  | Some _ =>
      MakeCoMaster_Cleanup instanceKey deferred instance master
        (Some (cannotBeginMaintenance (Key master)))
  | None =>
  let deferred := maintenanceToken :: deferred in
  '(master, err) <-
     call (ChangeMasterTo (Key master) instanceKey
             (SelfBinlogCoordinates instance)) ;;
  MakeCoMaster_Cleanup instanceKey deferred instance master err
  end end end end.

(** *** ResetSlaveOperation *)

Definition ResetSlaveOperation_Cleanup (instanceKey : InstanceKey)
    (deferred : list MaintenanceToken) (err : option error)
  : Prog (Instance * option error) :=
  '(instance, _) <- call (StartSlave instanceKey) ;;
  match err with
  | Some e => runDeferred deferred ;; Ret (instance, Some e)
  | None =>
      call (AuditOperation "reset slave" instanceKey
              (fmtKey instanceKey ++ " replication reset")) ;;
      runDeferred deferred ;;
      Ret (instance, err)
  end.

Definition ResetSlaveOperation_Reset (instanceKey : InstanceKey)
    (deferred : list MaintenanceToken) : Prog (Instance * option error) :=
  '(instance, err) <- call (ResetSlave instanceKey) ;;
  ResetSlaveOperation_Cleanup instanceKey deferred err.

Definition ResetSlaveOperation (instanceKey : InstanceKey)
  : Prog (Instance * option error) :=
  '(instance, err) <- call (ReadTopologyInstance instanceKey) ;;
  match err with
  | Some _ => Ret (instance, err)
  | None =>
  '(maintenanceToken, merr) <-
     call (BeginMaintenance instanceKey "orchestrator" "reset slave") ;;
  match merr with
  | Some _ =>
      ResetSlaveOperation_Cleanup instanceKey []
        (Some (cannotBeginMaintenance instanceKey))
  | None =>
  let deferred := [maintenanceToken] in
  if IsSlave instance then
    '(instance, err) <- call (StopSlave instanceKey) ;;
    match err with
    | Some _ => ResetSlaveOperation_Cleanup instanceKey deferred err
    | None => ResetSlaveOperation_Reset instanceKey deferred
    end
  else ResetSlaveOperation_Reset instanceKey deferred
  end end.

(** *** MatchBelow *)

Definition MatchBelow_Cleanup (instanceKey otherKey : InstanceKey)
    (deferred : list MaintenanceToken) (err : option error)
  : Prog (Instance * option error) :=
  '(instance, _) <- call (StartSlave instanceKey) ;;
  match err with
  | Some e => runDeferred deferred ;; Ret (instance, Some e)
  | None =>
      call (AuditOperation "match-below" instanceKey
              ("matched " ++ fmtKey instanceKey ++ " below " ++ fmtKey otherKey)) ;;
      runDeferred deferred ;;
      Ret (instance, err)
  end.

(** [MatchBelow] from the point where the leases are settled. *)
Definition MatchBelow_locked (instanceKey otherKey : InstanceKey)
    (otherInstance : Instance) (deferred : list MaintenanceToken)
  : Prog (Instance * option error) :=
  '(instance, err) <- call (StopSlave instanceKey) ;;
  match err with
  | Some _ => MatchBelow_Cleanup instanceKey otherKey deferred err
  | None =>
  '(instancePseudoGtidCoordinates, instancePseudoGtidText, err) <-
     call (GetLastPseudoGTIDEntryInInstance instance) ;;
  match err with
  | Some _ => MatchBelow_Cleanup instanceKey otherKey deferred err
  | None =>
  '(otherInstancePseudoGtidCoordinates, err) <-
     call (SearchPseudoGTIDEntryInInstance otherInstance instancePseudoGtidText) ;;
  match err with
  | Some _ => MatchBelow_Cleanup instanceKey otherKey deferred err
  | None =>
  '(nextBinlogCoordinatesToMatch, err) <-
     call (GetNextBinlogCoordinatesToMatch instance instancePseudoGtidCoordinates
             otherInstance otherInstancePseudoGtidCoordinates) ;;
  match err with
  | Some _ => MatchBelow_Cleanup instanceKey otherKey deferred err
  | None =>
  '(instance, err) <-
     call (ChangeMasterTo instanceKey otherKey nextBinlogCoordinatesToMatch) ;;
  MatchBelow_Cleanup instanceKey otherKey deferred err
  end end end end.

(** The second, optional lease of [MatchBelow]. *)
Definition MatchBelow_lockOther (instanceKey otherKey : InstanceKey)
    (requireOtherMaintenance : bool) (otherInstance : Instance)
    (deferred : list MaintenanceToken) : Prog (Instance * option error) :=
  if requireOtherMaintenance then
    '(maintenanceToken, merr) <-
       call (BeginMaintenance otherKey "orchestrator"
               (fmtKey instanceKey ++ " matches below this")) ;;
    match merr with
    | Some _ =>
        MatchBelow_Cleanup instanceKey otherKey deferred
          (Some (cannotBeginMaintenance otherKey))
    | None =>
        MatchBelow_locked instanceKey otherKey otherInstance
          (maintenanceToken :: deferred)
    end
  else MatchBelow_locked instanceKey otherKey otherInstance deferred.

Definition MatchBelow (instanceKey otherKey : InstanceKey)
    (requireInstanceMaintenance requireOtherMaintenance : bool)
  : Prog (Instance * option error) :=
  '(instance, err) <- call (ReadTopologyInstance instanceKey) ;;
  match err with
  | Some _ => Ret (instance, err)
  | None =>
  if KeyEquals instanceKey otherKey then
    Ret (instance, Some ("MatchBelow: attempt to match an instance below itself "
                           ++ fmtKey instanceKey))
  else
  '(otherInstance, err) <- call (ReadTopologyInstance otherKey) ;;
  match err with
  | Some _ => Ret (instance, err)
  | None =>
  '(rinstance, _, _) <- call (ReadInstance (Key instance)) ;;
  let '(canMove, merr) := CanMoveViaMatch rinstance in
  if negb canMove then Ret (instance, merr) else
  let '(canReplicate, cerr) := CanReplicateFrom instance otherInstance in
  if negb canReplicate then Ret (instance, cerr) else
  if requireInstanceMaintenance then
    '(maintenanceToken, merr) <-
       call (BeginMaintenance instanceKey "orchestrator"
               ("match below " ++ fmtKey otherKey)) ;;
    match merr with
    | Some _ =>
        MatchBelow_Cleanup instanceKey otherKey []
          (Some (cannotBeginMaintenance instanceKey))
    | None =>
        MatchBelow_lockOther instanceKey otherKey requireOtherMaintenance
          otherInstance [maintenanceToken]
    end
  else
    MatchBelow_lockOther instanceKey otherKey requireOtherMaintenance
      otherInstance []
  end end.

(** *** enslaveSiblings *)

(** One goroutine of [enslaveSiblings]; its error is only logged. *)
Definition enslaveSibling (instanceKey siblingKey : InstanceKey) : Prog unit :=
  MatchBelow siblingKey instanceKey true false ;; Ret tt.

Definition enslaveSiblings (sched : Schedule) (instanceKey : InstanceKey)
    (siblings : list Instance) : Prog (option error) :=
  interleave sched
    (map (fun sibling => enslaveSibling instanceKey (Key sibling))
       (filter (fun sibling =>
                  SQLThreadUpToDate sibling
                  && negb (KeyEquals (Key sibling) instanceKey))
          siblings)) ;;
  Ret None.

(** *** MakeMaster *)

(** The sibling that stops the promotion: the first one ahead of [instance]. *)
Definition moreAdvancedSibling (instance : Instance) (siblings : list Instance)
  : option Instance :=
  find (fun sibling =>
          SmallerThan (ExecBinlogCoordinates instance)
            (ExecBinlogCoordinates sibling))
    siblings.

Definition MakeMaster_Cleanup (instanceKey : InstanceKey)
    (deferred : list MaintenanceToken) (instance : Instance)
    (err : option error) : Prog (Instance * option error) :=
  match err with
  | Some e => runDeferred deferred ;; Ret (instance, Some e)
  | None =>
      call (AuditOperation "make-master" instanceKey
              ("made master of " ++ fmtKey instanceKey)) ;;
      runDeferred deferred ;;
      Ret (instance, err)
  end.

(** [MakeMaster] from the check of the SQL thread on. *)
Definition MakeMaster_promote (sched : Schedule) (instanceKey : InstanceKey)
    (instance masterInstance : Instance) : Prog (Instance * option error) :=
  if negb (SQLThreadUpToDate instance) then
    Ret (instance,
         Some ("MakeMaster: instance's SQL thread must be up-to-date with I/O thread for "
                 ++ fmtKey instanceKey))
  else
  '(siblings, err) <- call (ReadSlaveInstances (Key masterInstance)) ;;
  match err with
  | Some _ => Ret (instance, err)
  | None =>
  match moreAdvancedSibling instance siblings with
  | Some sibling =>
      Ret (instance,
           Some ("MakeMaster: instance " ++ fmtKey instanceKey
                   ++ " has more advanced sibling: " ++ fmtKey (Key sibling)))
  | None =>
  '(maintenanceToken, merr) <-
     call (BeginMaintenance instanceKey "orchestrator"
             ("siblings match below this%!(EXTRA inst.InstanceKey="
                ++ fmtKeyV instanceKey ++ ")")) ;;
  match merr with
  | Some _ =>
      MakeMaster_Cleanup instanceKey [] instance
        (Some (cannotBeginMaintenance instanceKey))
  | None =>
  let deferred := [maintenanceToken] in
  err <- enslaveSiblings sched instanceKey siblings ;;
  match err with
  | Some _ => MakeMaster_Cleanup instanceKey deferred instance err
  | None =>
  call (SetReadOnly instanceKey false) ;;
  MakeMaster_Cleanup instanceKey deferred instance err
  end end end end.

Definition MakeMaster (sched : Schedule) (instanceKey : InstanceKey)
  : Prog (Instance * option error) :=
  '(instance, err) <- call (ReadTopologyInstance instanceKey) ;;
  match err with
  | Some _ => Ret (instance, err)
  | None =>
  '(masterInstance, err) <- call (ReadTopologyInstance (MasterKey instance)) ;;
  match err with
  | Some _ =>
      if IsSlave masterInstance then
        Ret (instance,
             Some ("MakeMaster: instance's master " ++ fmtKey (Key masterInstance)
                     ++ " seems to be replicating"))
      else if IsLastCheckValid masterInstance then
        Ret (instance,
             Some ("MakeMaster: instance's master " ++ fmtKey (Key masterInstance)
                     ++ " seems to be accessible"))
      else MakeMaster_promote sched instanceKey instance masterInstance
  | None => MakeMaster_promote sched instanceKey instance masterInstance
  end end.

(** *** MakeLocalMaster *)

Definition MakeLocalMaster_Cleanup (instanceKey : InstanceKey)
    (deferred : list MaintenanceToken) (instance : Instance)
    (err : option error) : Prog (Instance * option error) :=
  match err with
  | Some e => runDeferred deferred ;; Ret (instance, Some e)
  | None =>
      call (AuditOperation "make-local-master" instanceKey
              ("made master of " ++ fmtKey instanceKey)) ;;
      runDeferred deferred ;;
      Ret (instance, err)
  end.

Definition MakeLocalMaster (sched : Schedule) (instanceKey : InstanceKey)
  : Prog (Instance * option error) :=
  '(instance, err) <- call (ReadTopologyInstance instanceKey) ;;
  match err with
  | Some _ => Ret (instance, err)
  | None =>
  '(masterInstance, found, err) <- call (ReadInstance (MasterKey instance)) ;;
  match err, (found : bool) with
  | Some _, _ | None, false => Ret (instance, err)
  | None, true =>
  '(grandparentInstance, err) <-
     call (ReadTopologyInstance (MasterKey masterInstance)) ;;
  match err with
  | Some _ => Ret (instance, err)
  | None =>
  '(siblings, err) <- call (ReadSlaveInstances (Key masterInstance)) ;;
  match err with
  | Some _ => Ret (instance, err)
  | None =>
  match moreAdvancedSibling instance siblings with
  | Some sibling =>
      Ret (instance,
           Some ("MakeMaster: instance " ++ fmtKey instanceKey
                   ++ " has more advanced sibling: " ++ fmtKey (Key sibling)))
  | None =>
  '(maintenanceToken, merr) <-
     call (BeginMaintenance instanceKey "orchestrator"
             ("siblings match below this%!(EXTRA inst.InstanceKey="
                ++ fmtKeyV instanceKey ++ ")")) ;;
  match merr with
  | Some _ =>
      MakeLocalMaster_Cleanup instanceKey [] instance
        (Some (cannotBeginMaintenance instanceKey))
  | None =>
  let deferred := [maintenanceToken] in
  '(instance, err) <- call (StopSlaveNicely instanceKey) ;;
  match err with
  | Some _ => MakeLocalMaster_Cleanup instanceKey deferred instance err
  | None =>
  '(_, err) <- MatchBelow instanceKey (Key grandparentInstance) false false ;;
  match err with
  | Some _ => MakeLocalMaster_Cleanup instanceKey deferred instance err
  | None =>
  err <- enslaveSiblings sched instanceKey siblings ;;
  MakeLocalMaster_Cleanup instanceKey deferred instance err
  end end end end end end end end.

End Operators.

(** ** Topology rendering *)

(** The outcome of a Go function that may dereference a nil pointer.
    [OutOfFuel] only marks the bound of the recursion of the embedding. *)
Inductive Outcome (A : Type) : Type :=
| Returned (a : A)
| NilDereference
| OutOfFuel.

Arguments Returned {A} a.
Arguments NilDereference {A}.
Arguments OutOfFuel {A}.

(** An [*Instance] of the slice answered by [ReadClusterInstances] is the
    position of the instance in the slice; [None] is nil. *)
Definition Ptr := nat.

(** A Go map as the list of its assignments, the latest first. *)
Definition mapGet {K V : Type} (eqb : K -> K -> bool) (m : list (K * V)) (k : K)
  : option V :=
  match find (fun kv => eqb (fst kv) k) m with
  | Some kv => Some (snd kv)
  | None => None
  end.

Definition mapSet {K V : Type} (m : list (K * V)) (k : K) (v : V)
  : list (K * V) := (k, v) :: m.

Definition indexed {A : Type} (l : list A) : list (Ptr * A) :=
  combine (seq 0 (List.length l)) l.

Section Rendering.

Context {IM : InstanceMethods}.

Definition ReplicationMap := list (Ptr * list Ptr).

Definition slavesOf (replicationMap : ReplicationMap) (p : Ptr) : list Ptr :=
  match mapGet Nat.eqb replicationMap p with
  | Some slaves => slaves
  | None => []
  end.

Fixpoint getAsciiTopologyEntry (fuel : nat) (instances : list Instance)
    (depth : nat) (instance : option Ptr) (replicationMap : ReplicationMap)
  : Outcome (list string) :=
  match fuel with
  | O => OutOfFuel
  | S fuel' =>
      match instance with
      | None => NilDereference
      | Some p =>
          match nth_error instances p with
          | None => NilDereference
          | Some this =>
              let prefix :=
                if Nat.ltb 0 depth then
                  Repeat " " ((depth - 1) * 2)
                    ++ (if SlaveRunning this then "+ " else "- ")
                else "" in
              let entry := prefix ++ DisplayString (Key this) in
              fold_left
                (fun result slave =>
                   match result with
                   | Returned result =>
                       match getAsciiTopologyEntry fuel' instances (depth + 1)
                               (Some slave) replicationMap with
                       | Returned slavesResult =>
                           Returned (result ++ slavesResult)%list
                       | NilDereference => NilDereference
                       | OutOfFuel => OutOfFuel
                       end
                   | _ => result
                   end)
                (slavesOf replicationMap p) (Returned [entry])
          end
      end
  end.

(** First loop of [AsciiTopology]. *)
Definition buildInstancesMap (instances : list Instance)
  : list (InstanceKey * Ptr) :=
  fold_left (fun instancesMap pi => mapSet instancesMap (Key (snd pi)) (fst pi))
    (indexed instances) [].

(** Second loop of [AsciiTopology]: the replication map and the root. *)
Definition investigateSlaves (instances : list Instance)
    (instancesMap : list (InstanceKey * Ptr)) : ReplicationMap * option Ptr :=
  fold_left
    (fun st pi =>
       let '(replicationMap, masterInstance) := st in
       match mapGet KeyEquals instancesMap (MasterKey (snd pi)) with
       | Some master =>
           (mapSet replicationMap master
              (slavesOf replicationMap master ++ [fst pi])%list,
            masterInstance)
       | None => (replicationMap, Some (fst pi))
       end)
    (indexed instances) ([], None).

Definition AsciiTopology (clusterName : string)
  : Prog (Outcome (string * option error)) :=
  '(instances, err) <- call (ReadClusterInstances clusterName) ;;
  match err with
  | Some _ => Ret (Returned ("", err))
  | None =>
      let instancesMap := buildInstancesMap instances in
      let '(replicationMap, masterInstance) :=
        investigateSlaves instances instancesMap in
      match getAsciiTopologyEntry (S (List.length instances)) instances 0
              masterInstance replicationMap with
      | Returned resultArray =>
          Ret (Returned (Join resultArray (String "010"%char ""), None))
      | NilDereference => Ret NilDereference
      | OutOfFuel => Ret OutOfFuel
      end
  end.

End Rendering.

(** ** A simulated deployment

    A small executable stand-in for the collaborators: the outside world is
    the list of known nodes and a counter for lease tokens; a fault plan says
    which calls fail. *)

Module Sim.

Record World : Type := mkWorld { nodes : list Instance; nextToken : Z }.

Definition noKey : InstanceKey := mkKey "" 0.
Definition noCoord : BinlogCoordinates := mkCoord "" 0.

Definition NewInstance (k : InstanceKey) : Instance :=
  mkInstance k noKey noCoord noCoord false.

Definition lookup (k : InstanceKey) (ns : list Instance) : option Instance :=
  find (fun i => KeyEquals (Key i) k) ns.

Definition get (k : InstanceKey) (ns : list Instance) : Instance :=
  match lookup k ns with
  | Some i => i
  | None => NewInstance k
  end.

Definition update (k : InstanceKey) (f : Instance -> Instance)
    (ns : list Instance) : list Instance :=
  map (fun i => if KeyEquals (Key i) k then f i else i) ns.

Definition methods : InstanceMethods := {|
  IsSlave := fun i => negb (String.eqb (Hostname (MasterKey i)) "");
  SlaveRunning := fun i => negb (String.eqb (Hostname (MasterKey i)) "");
  SQLThreadUpToDate := fun _ => true;
  CanMove := fun i =>
    if IsLastCheckValid i then (true, None)
    else (false, Some "last check invalid");
  CanMoveAsCoMaster := fun i =>
    if IsLastCheckValid i then (true, None)
    else (false, Some "last check invalid");
  CanMoveViaMatch := fun i =>
    if IsLastCheckValid i then (true, None)
    else (false, Some "last check invalid");
  CanReplicateFrom := fun _ _ => (true, None);
  fmtInstance := fun i => "&{Key:" ++ fmtKey (Key i) ++ "}"
|}.

(** The answer of a driver call on node [k] after the node was changed by [f]. *)
Definition drive (fails : bool) (k : InstanceKey) (f : Instance -> Instance)
    (w : World) : (Instance * option error) * World :=
  if fails then (get k (nodes w), Some "driver failure", w)
  else
    let ns := update k f (nodes w) in
    (get k ns, None, mkWorld ns (nextToken w)).

Definition handler (fails : Call -> bool) : Handler World :=
  fun c =>
    match c as c0 return World -> Resp c0 * World with
    | ReadClusterInstances _ as c0 => fun w =>
        if fails c0 then ([], Some "backend failure", w)
        else (nodes w, None, w)
    | ReadTopologyInstance k as c0 => fun w =>
        match fails c0, lookup k (nodes w) with
        | false, Some i => (i, None, w)
        | _, _ => (get k (nodes w), Some "cannot reach instance", w)
        end
    | ReadInstance k => fun w =>
        match lookup k (nodes w) with
        | Some i => (i, true, None, w)
        | None => (NewInstance k, false, None, w)
        end
    | ReadSlaveInstances k as c0 => fun w =>
        if fails c0 then ([], Some "backend failure", w)
        else (filter (fun i => KeyEquals (MasterKey i) k) (nodes w), None, w)
    | BeginMaintenance _ _ _ as c0 => fun w =>
        if fails c0 then (0%Z, Some "already in maintenance", w)
        else (nextToken w, None, mkWorld (nodes w) (nextToken w + 1))
    | EndMaintenance _ => fun w => (tt, w)
    | StopSlave k as c0 => drive (fails c0) k (fun i => i)
    | StopSlaveNicely k as c0 => drive (fails c0) k (fun i => i)
    | StartSlave k as c0 => drive (fails c0) k (fun i => i)
    | StartSlaveUntilMasterCoordinates k coord as c0 =>
        drive (fails c0) k
          (fun i => mkInstance (Key i) (MasterKey i) (SelfBinlogCoordinates i)
                      coord (IsLastCheckValid i))
    | ChangeMasterTo k mk coord as c0 =>
        drive (fails c0) k
          (fun i => mkInstance (Key i) mk (SelfBinlogCoordinates i) coord
                      (IsLastCheckValid i))
    | ResetSlave k as c0 =>
        drive (fails c0) k
          (fun i => mkInstance (Key i) noKey (SelfBinlogCoordinates i) noCoord
                      (IsLastCheckValid i))
    | SetReadOnly k _ as c0 => drive (fails c0) k (fun i => i)
    | GetLastPseudoGTIDEntryInInstance i as c0 => fun w =>
        if fails c0 then (noCoord, "", Some "no pseudo-GTID entry found", w)
        else (ExecBinlogCoordinates i, "PG-17", None, w)
    | SearchPseudoGTIDEntryInInstance i _ as c0 => fun w =>
        if fails c0 then (noCoord, Some "pseudo-GTID entry not found", w)
        else (SelfBinlogCoordinates i, None, w)
    | GetNextBinlogCoordinatesToMatch _ _ _ oc as c0 => fun w =>
        if fails c0 then (noCoord, Some "instance is more advanced", w)
        else (oc, None, w)
    | AuditOperation _ _ _ => fun w => (tt, w)
    end.

Definition noFault : Call -> bool := fun _ => false.

(** A chain M -> U -> T with a second replica S of U. *)
Definition kM : InstanceKey := mkKey "m" 3306.
Definition kU : InstanceKey := mkKey "u" 3306.
Definition kT : InstanceKey := mkKey "t" 3306.
Definition kS : InstanceKey := mkKey "s" 3306.

Definition chain : World :=
  mkWorld
    [ mkInstance kM noKey (mkCoord "m-bin.001" 700) noCoord true;
      mkInstance kU kM (mkCoord "u-bin.004" 400) (mkCoord "m-bin.001" 650) true;
      mkInstance kT kU (mkCoord "t-bin.002" 90) (mkCoord "u-bin.004" 100) true;
      mkInstance kS kU (mkCoord "s-bin.009" 55) (mkCoord "u-bin.004" 120) true ]
    1.

End Sim.

(** The edges of the replication graph of the simulated deployment. *)
Definition Sim_upstreams (w : Sim.World) : list (InstanceKey * InstanceKey) :=
  map (fun i => (Key i, MasterKey i)) (Sim.nodes w).

(** Fault plans of the simulated deployment. *)
Definition failMatcher (c : Call) : bool :=
  match c with GetLastPseudoGTIDEntryInInstance _ => true | _ => false end.

Definition failLease (k : InstanceKey) (c : Call) : bool :=
  match c with BeginMaintenance k' _ _ => KeyEquals k' k | _ => false end.

Definition failSetReadOnly (c : Call) : bool :=
  match c with SetReadOnly _ _ => true | _ => false end.

(** Two co-masters A and B. *)
Definition kA : InstanceKey := mkKey "a" 3306.
Definition kB : InstanceKey := mkKey "b" 3306.

Definition coMasters : Sim.World :=
  Sim.mkWorld
    [ mkInstance kA kB (mkCoord "a-bin.001" 10) (mkCoord "b-bin.001" 20) true;
      mkInstance kB kA (mkCoord "b-bin.001" 20) (mkCoord "a-bin.001" 10) true ]
    1.

(** The chain with a stale inventory record for S. *)
Definition staleChain : Sim.World :=
  Sim.mkWorld
    (Sim.update Sim.kS
       (fun i => mkInstance (Key i) (MasterKey i) (SelfBinlogCoordinates i)
                   (ExecBinlogCoordinates i) false)
       (Sim.nodes Sim.chain))
    1.

(** ** Reading traces *)

(** Classes of calls. *)
Definition isStart (c : Call) : bool :=
  match c with StartSlave _ => true | _ => false end.

Definition isChangeMaster (c : Call) : bool :=
  match c with ChangeMasterTo _ _ _ => true | _ => false end.

Definition isBegin (c : Call) : bool :=
  match c with BeginMaintenance _ _ _ => true | _ => false end.

Definition isAudit (c : Call) : bool :=
  match c with AuditOperation _ _ _ => true | _ => false end.

(** The calls of the replication driver. *)
Definition isDriver (c : Call) : bool :=
  match c with
  | StopSlave _ | StopSlaveNicely _ | StartSlave _
  | StartSlaveUntilMasterCoordinates _ _ | ChangeMasterTo _ _ _
  | ResetSlave _ | SetReadOnly _ _ => true
  | _ => false
  end.

(** Driver calls other than [StartSlave]: Stop, StopNicely, StartUntil,
    ChangeMasterTo, Reset and SetReadOnly. *)
Definition isMutation (c : Call) : bool := isDriver c && negb (isStart c).

(** Calls that give a node another upstream, or none. *)
Definition repoints (c : Call) : bool :=
  match c with ChangeMasterTo _ _ _ | ResetSlave _ => true | _ => false end.

Definition driverCalls (tr : list Event) : list Call := filter isDriver (calls tr).

Definition audited (tr : list Event) : bool := existsb isAudit (calls tr).

(** The keys of the leases asked for, in order. *)
Definition beginKeys (tr : list Event) : list InstanceKey :=
  flat_map (fun c => match c with BeginMaintenance k _ _ => [k] | _ => [] end)
    (calls tr).

(** The key of a lease that was refused. *)
Definition failedLease (e : Event) : list InstanceKey :=
  match e with
  | Ev c r =>
      match c return Resp c -> list InstanceKey with
      | BeginMaintenance k _ _ =>
          fun r => match snd r with Some _ => [k] | None => [] end
      | _ => fun _ => []
      end r
  end.

Definition failedLeases (tr : list Event) : list InstanceKey :=
  flat_map failedLease tr.

(** A driver call with its answer. *)
Definition driverAnswer (e : Event) : list (Call * (Instance * option error)) :=
  match e with
  | Ev c r =>
      match c return Resp c -> list (Call * (Instance * option error)) with
      | StopSlave _ as c0 | StopSlaveNicely _ as c0 | StartSlave _ as c0
      | StartSlaveUntilMasterCoordinates _ _ as c0
      | ChangeMasterTo _ _ _ as c0 | ResetSlave _ as c0
      | SetReadOnly _ _ as c0 => fun r => [(c0, r)]
      | _ => fun _ => []
      end r
  end.

Definition driverLog (tr : list Event)
  : list (Call * (Instance * option error)) := flat_map driverAnswer tr.

(** The error answered by a call to the pseudo-GTID matcher. *)
Definition matcherError (e : Event) : list error :=
  match e with
  | Ev c r =>
      match c return Resp c -> list error with
      | GetLastPseudoGTIDEntryInInstance _ =>
          fun r => match snd r with Some e => [e] | None => [] end
      | SearchPseudoGTIDEntryInInstance _ _ =>
          fun r => match snd r with Some e => [e] | None => [] end
      | GetNextBinlogCoordinatesToMatch _ _ _ _ =>
          fun r => match snd r with Some e => [e] | None => [] end
      | _ => fun _ => []
      end r
  end.

Definition matcherErrors (tr : list Event) : list error :=
  flat_map matcherError tr.

(** The authoritative reads of a run with their answers. *)
Definition probeAnswer (e : Event)
  : list (InstanceKey * (Instance * option error)) :=
  match e with
  | Ev c r =>
      match c return Resp c -> list (InstanceKey * (Instance * option error)) with
      | ReadTopologyInstance k => fun r => [(k, r)]
      | _ => fun _ => []
      end r
  end.

Definition probeLog (tr : list Event)
  : list (InstanceKey * (Instance * option error)) := flat_map probeAnswer tr.

(** The inventory lookups of a run: the key and whether it was found. *)
Definition lookupAnswer (e : Event) : list (InstanceKey * bool) :=
  match e with
  | Ev c r =>
      match c return Resp c -> list (InstanceKey * bool) with
      | ReadInstance k => fun r => [(k, snd (fst r))]
      | _ => fun _ => []
      end r
  end.

Definition lookupLog (tr : list Event) : list (InstanceKey * bool) :=
  flat_map lookupAnswer tr.

(** A start of node [k]. *)
Definition startsNode (k : InstanceKey) (c : Call) : bool :=
  match c with StartSlave k' => KeyEquals k' k | _ => false end.

(** Every stop is followed, later in the list, by a start of the same node. *)
Fixpoint stopsRestarted (cs : list Call) : bool :=
  match cs with
  | [] => true
  | c :: rest =>
      match c with
      | StopSlave k | StopSlaveNicely k =>
          existsb (startsNode k) rest
      | _ => true
      end && stopsRestarted rest
  end.

(** The nodes stopped and not yet started again, after call [c]. *)
Definition pendingAfter (c : Call) (pending : list InstanceKey)
  : list InstanceKey :=
  match c with
  | StopSlave k | StopSlaveNicely k => k :: pending
  | StartSlave k' => filter (fun k => negb (KeyEquals k' k)) pending
  | _ => pending
  end.

(** Whatever the collaborators answer, the program returns with no node
    left pending. *)
Fixpoint Restarts {A : Type} (pending : list InstanceKey) (p : Prog A) : Prop :=
  match p with
  | Ret _ => pending = []
  | Vis c k => forall r, Restarts (pendingAfter c pending) (k r)
  end.

(** Every node of [pending] is started by one of the calls. *)
Definition startsAll (cs : list Call) (pending : list InstanceKey) : Prop :=
  Forall (fun k => existsb (startsNode k) cs = true) pending.

(** The threads of an interleaving, each with its pending nodes. *)
Definition RestartAll (pendings : list (list InstanceKey))
    (ps : list (Prog unit)) : Prop :=
  Forall2 (fun pending p => Restarts pending p) pendings ps.

(** All calls a program may ever issue satisfy [P]. *)
Fixpoint CallsAll {A : Type} (P : Call -> Prop) (p : Prog A) : Prop :=
  match p with
  | Ret _ => True
  | Vis c k => P c /\ forall r, CallsAll P (k r)
  end.

(** No lease on [k] is asked for. *)
Definition leavesLease (k : InstanceKey) (c : Call) : Prop :=
  match c with
  | BeginMaintenance k' _ _ => KeyEquals k' k = false
  | _ => True
  end.

(** The driver answers a stop with the node it was asked to stop. *)
Definition stopAnswersForNode {W : Type} (h : Handler W) : Prop :=
  forall k w, Key (fst (fst (h (StopSlave k) w))) = k.

(** An eligibility predicate gives a reason whenever it refuses. *)
Definition reasoned (p : Instance -> bool * option error) : Prop :=
  forall i, fst (p i) = false -> snd (p i) <> None.

(** The same for [CanReplicateFrom]. *)
Definition reasoned2 (p : Instance -> Instance -> bool * option error) : Prop :=
  forall i j, fst (p i j) = false -> snd (p i j) <> None.

(** ** The operators as one family *)

Inductive Operator : Type :=
| OpMoveUp (target : InstanceKey)
| OpMoveBelow (target sibling : InstanceKey)
| OpMakeCoMaster (target : InstanceKey)
| OpResetSlaveOperation (target : InstanceKey)
| OpMatchBelow (target other : InstanceKey) (lockTarget lockOther : bool)
| OpMakeMaster (sched : Schedule) (target : InstanceKey)
| OpMakeLocalMaster (sched : Schedule) (target : InstanceKey).

Definition operate {IM : InstanceMethods} (op : Operator)
  : Prog (Instance * option error) :=
  match op with
  | OpMoveUp target => MoveUp target
  | OpMoveBelow target sibling => MoveBelow target sibling
  | OpMakeCoMaster target => MakeCoMaster target
  | OpResetSlaveOperation target => ResetSlaveOperation target
  | OpMatchBelow target other lockTarget lockOther =>
      MatchBelow target other lockTarget lockOther
  | OpMakeMaster sched target => MakeMaster sched target
  | OpMakeLocalMaster sched target => MakeLocalMaster sched target
  end.

Definition targetOf (op : Operator) : InstanceKey :=
  match op with
  | OpMoveUp target | OpMoveBelow target _ | OpMakeCoMaster target
  | OpResetSlaveOperation target | OpMatchBelow target _ _ _
  | OpMakeMaster _ target | OpMakeLocalMaster _ target => target
  end.

(** Operators that run [MatchBelow] on the siblings of their target. *)
Definition fansOut (op : Operator) : bool :=
  match op with
  | OpMakeMaster _ _ | OpMakeLocalMaster _ _ => true
  | _ => false
  end.

(** ** What a refusal looks like *)

(** The errors with which [MakeCoMaster] refuses on a precondition: the
    reason of an eligibility predicate, or one of its two own messages. *)
Definition MakeCoMaster_refusal {IM : InstanceMethods}
    (target : InstanceKey) (upstream : Instance) (e : error) : Prop :=
  (exists i, CanMoveAsCoMaster i = (false, Some e))
  \/ (exists i, CanMove i = (false, Some e))
  \/ e = "instance  " ++ fmtKeyPtr target ++ " is already co master of "
           ++ fmtKey (Key upstream)
  \/ e = "master " ++ fmtKey (Key upstream) ++ " already has known master: "
           ++ fmtKey (MasterKey upstream).

(** What an operator does when a lease is refused on [k]. *)
Definition refusedForLease {W : Type} (k : InstanceKey)
    (x : (Instance * option error) * W * list Event) : Prop :=
  snd (result x) = Some (cannotBeginMaintenance k)
  /\ existsb isMutation (calls (trace x)) = false
  /\ audited (trace x) = false.

(** ** Proof automation *)

Ltac destruct_resp :=
  repeat match goal with
  | r : (_ * _)%type |- _ => destruct r
  | u : unit |- _ => destruct u
  end.

(** Ask the handler for the answer to the next call of the run. *)
Ltac step h :=
  match goal with
  | |- context [h ?c ?w] =>
      let E := fresh "E" in
      destruct (h c w) as [? ?] eqn:E; cbn in * |-; destruct_resp; cbn
  end.

(** Split on the test the run is waiting for. *)
Ltac branch :=
  match goal with
  | |- context [match ?x with _ => _ end] =>
      lazymatch x with
      | context [run] => fail
      | _ => destruct x eqn:?; cbn
      end
  end.

Ltac explore h := repeat first [step h | branch].

(** Split the run at the goroutines of [enslaveSiblings]; [run_bind] is the
    equation of [run] on [bind]. *)
Ltac fanout h run_bind :=
  rewrite ?run_bind;
  match goal with
  | |- context [run h (interleave ?s ?ps) ?w] =>
      let Hrun := fresh "Hrun" in
      destruct (run h (interleave s ps) w) as [[? ?] ?] eqn:Hrun
  end; cbn.

(** Use the contract of [StopSlave] on every stop of the run. *)
Ltac stop_keys HK :=
  repeat match goal with
  | E : _ (StopSlave ?k) ?w0 = (?i, _, _) |- _ =>
      let Hk := fresh "Hk" in
      pose proof (HK k w0) as Hk; rewrite E in Hk; cbn in Hk; clear E;
      try rewrite Hk in *
  end.

(** Close a branch of a run in which a lease was refused. *)
Ltac refused :=
  cbn;
  let H := fresh "H" in
  intros H; repeat destruct H as [H | H]; try contradiction; subst;
  repeat split.

(** ** Leases and outcomes of a run *)

(** The token of a lease that was granted. *)
Definition grantedLease (e : Event) : list MaintenanceToken :=
  match e with
  | Ev c r =>
      match c return Resp c -> list MaintenanceToken with
      | BeginMaintenance _ _ _ =>
          fun r => match snd r with None => [fst r] | Some _ => [] end
      | _ => fun _ => []
      end r
  end.

Definition grantedLeases (tr : list Event) : list MaintenanceToken :=
  flat_map grantedLease tr.

(** The tokens handed back, in order. *)
Definition releasedLeases (tr : list Event) : list MaintenanceToken :=
  flat_map (fun c => match c with EndMaintenance t => [t] | _ => [] end)
    (calls tr).

(** A release of token [t]. *)
Definition releases (t : MaintenanceToken) (e : Event) : bool :=
  match ev_call e with EndMaintenance t' => Z.eqb t' t | _ => false end.

(** Every lease that is granted is released later in the trace. *)
Fixpoint leasesReleased (tr : list Event) : bool :=
  match tr with
  | [] => true
  | e :: rest =>
      forallb (fun t => existsb (releases t) rest) (grantedLease e)
      && leasesReleased rest
  end.

(** The tokens held after event [e]. *)
Definition heldAfter (e : Event) (held : list MaintenanceToken)
  : list MaintenanceToken :=
  match ev_call e with
  | EndMaintenance t' => filter (fun t => negb (Z.eqb t' t)) held
  | _ => grantedLease e ++ held
  end.

(** Whatever the collaborators answer, the program returns holding no
    lease. *)
Fixpoint Releases {A : Type} (held : list MaintenanceToken) (p : Prog A)
  : Prop :=
  match p with
  | Ret _ => held = []
  | Vis c k => forall r, Releases (heldAfter (Ev c r) held) (k r)
  end.

(** Every token of [held] is released by one of the events. *)
Definition releasesAll (tr : list Event) (held : list MaintenanceToken) : Prop :=
  Forall (fun t => existsb (releases t) tr = true) held.

Definition ReleaseAll (helds : list (list MaintenanceToken))
    (ps : list (Prog unit)) : Prop :=
  Forall2 (fun held p => Releases held p) helds ps.

(** The last [n] elements of a list. *)
Definition lastn {A : Type} (n : nat) (l : list A) : list A :=
  skipn (List.length l - n) l.

(** No driver call comes before the lease on [k] is asked for. *)
Fixpoint leaseFirst (k : InstanceKey) (cs : list Call) : bool :=
  match cs with
  | [] => true
  | c :: rest =>
      match c with
      | BeginMaintenance k' _ _ => KeyEquals k' k || leaseFirst k rest
      | _ => negb (isDriver c) && leaseFirst k rest
      end
  end.

(** Operators that always take the lease on their target. *)
Definition leasesTarget (op : Operator) : bool :=
  match op with
  | OpMatchBelow _ _ lockTarget _ => lockTarget
  | _ => true
  end.

Ltac unfold_operators :=
  unfold MoveUp, MoveUp_Cleanup, GetInstanceMaster,
    MoveBelow, MoveBelow_ChangeMaster, MoveBelow_Cleanup,
    MakeCoMaster, MakeCoMaster_Cleanup,
    ResetSlaveOperation, ResetSlaveOperation_Reset,
    ResetSlaveOperation_Cleanup,
    MatchBelow, MatchBelow_lockOther, MatchBelow_locked, MatchBelow_Cleanup,
    MakeMaster, MakeMaster_promote, MakeMaster_Cleanup,
    MakeLocalMaster, MakeLocalMaster_Cleanup, enslaveSiblings.

(** A driver call other than a start that answered an error. *)
Definition failedMutation (x : Call * (Instance * option error)) : bool :=
  negb (isStart (fst x))
  && match snd (snd x) with Some _ => true | None => false end.

(** After a failed call, the driver is only asked to start. *)
Fixpoint haltsOnFailure (log : list (Call * (Instance * option error)))
  : bool :=
  match log with
  | [] => true
  | x :: rest =>
      (if failedMutation x then forallb (fun y => isStart (fst y)) rest
       else true)
      && haltsOnFailure rest
  end.

(** The audit records of a run: type and node. *)
Definition auditRecords (tr : list Event) : list (string * InstanceKey) :=
  flat_map (fun c => match c with
                     | AuditOperation auditType k _ => [(auditType, k)]
                     | _ => []
                     end) (calls tr).

(** The audit type under which each operator records its success. *)
Definition auditName (op : Operator) : string :=
  match op with
  | OpMoveUp _ => "move-up"
  | OpMoveBelow _ _ => "move-below"
  | OpMakeCoMaster _ => "make-co-master"
  | OpResetSlaveOperation _ => "reset slave"
  | OpMatchBelow _ _ _ _ => "match-below"
  | OpMakeMaster _ _ => "make-master"
  | OpMakeLocalMaster _ _ => "make-local-master"
  end.

(** The eligibility predicates give a reason whenever they refuse. *)
Definition eligibilityReasons (IM : InstanceMethods) : Prop :=
  reasoned CanMove /\ reasoned CanMoveAsCoMaster /\ reasoned CanMoveViaMatch
  /\ reasoned2 CanReplicateFrom.

(** Use the contract of the eligibility predicates on a refusal. *)
Ltac refusal_reason HC :=
  let HM := fresh "HM" in
  let HA := fresh "HA" in
  let HV := fresh "HV" in
  let HR := fresh "HR" in
  destruct HC as (HM & HA & HV & HR);
  match goal with
  | Hp : @CanMove _ ?i = (?b, None), Hb : negb ?b = true |- _ =>
      apply (HM i); rewrite Hp;
      (destruct b; [discriminate Hb | reflexivity])
  | Hp : @CanMoveAsCoMaster _ ?i = (?b, None), Hb : negb ?b = true |- _ =>
      apply (HA i); rewrite Hp;
      (destruct b; [discriminate Hb | reflexivity])
  | Hp : @CanMoveViaMatch _ ?i = (?b, None), Hb : negb ?b = true |- _ =>
      apply (HV i); rewrite Hp;
      (destruct b; [discriminate Hb | reflexivity])
  | Hp : @CanReplicateFrom _ ?i ?j = (?b, None), Hb : negb ?b = true |- _ =>
      apply (HR i j); rewrite Hp;
      (destruct b; [discriminate Hb | reflexivity])
  end.

(** The driver and the locks are asked about nodes other than [newMaster],
    and a node is only ever re-pointed onto [newMaster]. *)
Definition sparesMaster (newMaster : InstanceKey) (c : Call) : Prop :=
  match c with
  | StopSlave k | StopSlaveNicely k | StartSlave k
  | StartSlaveUntilMasterCoordinates k _ | ResetSlave k | SetReadOnly k _
  | BeginMaintenance k _ _ => KeyEquals k newMaster = false
  | ChangeMasterTo k masterKey _ =>
      KeyEquals k newMaster = false /\ masterKey = newMaster
  | _ => True
  end.



(** ** The tree drawn by [AsciiTopology] *)

(** One round of the second loop of [AsciiTopology]. *)
Definition investigateStep (instancesMap : list (InstanceKey * Ptr))
    (st : ReplicationMap * option Ptr) (pi : Ptr * Instance)
  : ReplicationMap * option Ptr :=
  let '(replicationMap, masterInstance) := st in
  match mapGet KeyEquals instancesMap (MasterKey (snd pi)) with
  | Some master =>
      (mapSet replicationMap master
         (slavesOf replicationMap master ++ [fst pi])%list,
       masterInstance)
  | None => (replicationMap, Some (fst pi))
  end.

(** The root after the instances [pre] were visited: the last of them whose
    master key the instances map does not know. *)
Definition rootOf (instancesMap : list (InstanceKey * Ptr))
    (pre : list Instance) (root : option Ptr) : Prop :=
  match root with
  | None =>
      forall i, In i pre ->
                mapGet KeyEquals instancesMap (MasterKey i) <> None
  | Some r =>
      exists a i b,
        pre = (a ++ i :: b)%list /\ List.length a = r
        /\ mapGet KeyEquals instancesMap (MasterKey i) = None
        /\ forall j, In j b ->
                     mapGet KeyEquals instancesMap (MasterKey j) <> None
  end.

(** What the second loop keeps true of the replication map and the root
    after the instances [pre] were visited: replicas are visited instances,
    no instance is listed under two masters, the root is listed under none. *)
Definition TreeInv (instancesMap : list (InstanceKey * Ptr))
    (pre : list Instance) (st : ReplicationMap * option Ptr) : Prop :=
  (forall p c, In c (slavesOf (fst st) p) -> c < List.length pre)
  /\ (forall p q c, In c (slavesOf (fst st) p) -> In c (slavesOf (fst st) q)
                    -> p = q)
  /\ (forall r p, snd st = Some r -> ~ In r (slavesOf (fst st) p))
  /\ rootOf instancesMap pre (snd st).

(** [x] is listed under the first of [l], which is listed under the next,
    and so on up to [r]. *)
Fixpoint hangsBelow (replicationMap : ReplicationMap) (x : Ptr)
    (l : list Ptr) (r : Ptr) : Prop :=
  match l with
  | [] => x = r
  | y :: l' =>
      In x (slavesOf replicationMap y) /\ hangsBelow replicationMap y l' r
  end.

(** The loop of [getAsciiTopologyEntry] over the replicas of an instance. *)
Definition appendSlaves (draw : Ptr -> Outcome (list string))
    (result : Outcome (list string)) (slave : Ptr) : Outcome (list string) :=
  match result with
  | Returned result =>
      match draw slave with
      | Returned slavesResult => Returned (result ++ slavesResult)%list
      | NilDereference => NilDereference
      | OutOfFuel => OutOfFuel
      end
  | _ => result
  end.

(** Close a branch of a run that released every lease it was granted. *)
Ltac released :=
  cbn; rewrite ?Z.eqb_refl; cbn; rewrite ?orb_true_r; reflexivity.

(** Close a branch of a run that went through [enslaveSiblings]: the
    operator's own lease is released after the goroutines are done. *)
Ltac released_after_fanout h target Happ Hrel :=
  cbn; rewrite ?existsb_app; cbn; rewrite ?Z.eqb_refl; cbn;
  rewrite ?orb_true_r; cbn;
  repeat (apply Happ; [| reflexivity]);
  match goal with
  | Hrun : run h (interleave ?s (map ?f (filter ?g ?l))) ?w0 = _ |- _ =>
      let Hok := fresh "Hok" in
      pose proof (Hrel s target (filter g l) w0) as Hok;
      rewrite Hrun in Hok; exact Hok
  end.

(** The leases of a promotion: its own, then those of the goroutines. *)
Ltac own_lease_once h target Hbind Hkeys :=
  unfold_operators; cbn;
  explore h; cbn; auto;
  try solve [right; exists (@nil InstanceKey); split;
             first [reflexivity | apply Forall_nil]];
  fanout h Hbind; explore h;
  right; eexists; (split; [reflexivity |]);
  rewrite ?map_app, ?flat_map_app; cbn; rewrite ?app_nil_r;
  match goal with
  | Hrun : run h (interleave ?s (map _ (filter _ ?l))) ?w0 = _ |- _ =>
      let Hok := fresh "Hok" in
      pose proof (Hkeys s target l w0) as Hok;
      rewrite Hrun in Hok; exact Hok
  end.


(** * Facts *)

(** Messages are kept folded while runs are evaluated. *)
#[local] Arguments String.append : simpl never.
#[local] Arguments fmtKey : simpl never.
#[local] Arguments fmtKeyV : simpl never.
#[local] Arguments fmtKeyPtr : simpl never.
#[local] Arguments cannotBeginMaintenance : simpl never.
#[local] Arguments enslaveSibling : simpl never.

(** ** Facts about keys and coordinates *)

Lemma KeyEquals_refl (k : InstanceKey) : KeyEquals k k = true.
Proof.
  unfold KeyEquals. now rewrite String.eqb_refl, Z.eqb_refl.
Qed.

Lemma KeyEquals_eq (a b : InstanceKey) : KeyEquals a b = true <-> a = b.
Proof.
  split.
  - unfold KeyEquals. intros H. apply andb_true_iff in H as [Hh Hp].
    apply String.eqb_eq in Hh. apply Z.eqb_eq in Hp.
    destruct a, b; cbn in *; congruence.
  - intros ->. apply KeyEquals_refl.
Qed.

Lemma ltb_asym (s t : string) : String.ltb s t = true -> String.ltb t s = false.
Proof.
  unfold String.ltb. rewrite (String.compare_antisym s t).
  destruct (String.compare t s); cbn; congruence.
Qed.

Lemma ltb_irrefl_eqb (s t : string) :
  String.eqb s t = true -> String.ltb s t = false.
Proof.
  intros H. apply String.eqb_eq in H. subst t. unfold String.ltb.
  pose proof (String.compare_antisym s s) as E.
  destruct (String.compare s s); cbn in E; congruence.
Qed.

Lemma ltb_neq (s t : string) : String.ltb s t = true -> String.eqb s t = false.
Proof.
  intros H. destruct (String.eqb s t) eqn:E; [|reflexivity].
  apply ltb_irrefl_eqb in E. congruence.
Qed.

Lemma SmallerThan_asym (a b : BinlogCoordinates) :
  SmallerThan a b = true -> SmallerThan b a = false.
Proof.
  unfold SmallerThan. intros H.
  apply orb_true_iff in H as [H | H].
  - rewrite (ltb_asym _ _ H). cbn.
    apply ltb_neq in H. rewrite String.eqb_sym, H. reflexivity.
  - apply andb_true_iff in H as [He Hp].
    rewrite String.eqb_sym in He.
    rewrite (ltb_irrefl_eqb _ _ He), He. cbn.
    apply Z.ltb_lt in Hp. apply Z.ltb_ge. lia.
Qed.

Lemma CoordEquals_not_smaller (a b : BinlogCoordinates) :
  CoordEquals a b = true -> SmallerThan a b = false /\ SmallerThan b a = false.
Proof.
  unfold CoordEquals, SmallerThan. intros H.
  apply andb_true_iff in H as [He Hp]. apply Z.eqb_eq in Hp.
  rewrite (ltb_irrefl_eqb _ _ He), He.
  rewrite String.eqb_sym in He. rewrite (ltb_irrefl_eqb _ _ He), He.
  cbn. rewrite Hp, Z.ltb_irrefl. split; reflexivity.
Qed.

(** ** Facts about runs *)

Lemma run_bind W A B (h : Handler W) (p : Prog A) (f : A -> Prog B) (w : W) :
  run h (bind p f) w =
  let '(a, w1, t1) := run h p w in
  let '(b, w2, t2) := run h (f a) w1 in
  (b, w2, (t1 ++ t2)%list).
Proof.
  revert w; induction p as [a | c k IH]; intros w; cbn.
  - destruct (run h (f a) w) as [[b w2] t2]; reflexivity.
  - destruct (h c w) as [r w1]. rewrite IH.
    destruct (run h (k r) w1) as [[a w2] t1].
    destruct (run h (f a) w2) as [[b w3] t2]; reflexivity.
Qed.

Lemma CallsAll_bind A B (P : Call -> Prop) (p : Prog A) (f : A -> Prog B) :
  CallsAll P p -> (forall a, CallsAll P (f a)) -> CallsAll P (bind p f).
Proof.
  intros Hp Hf. induction p as [a | c k IH]; cbn in *.
  - apply Hf.
  - destruct Hp as [Hc Hk]. split; [exact Hc|]. intros r. apply IH, Hk.
Qed.

Lemma CallsAll_sequence_ (P : Call -> Prop) (ps : list (Prog unit)) :
  Forall (CallsAll P) ps -> CallsAll P (sequence_ ps).
Proof.
  induction 1 as [| p ps Hp _ IH]; cbn.
  - exact I.
  - apply CallsAll_bind; [exact Hp | intros _; exact IH].
Qed.

Lemma Forall_replace_nth A (Q : A -> Prop) (l : list A) (n : nat) (x : A) :
  Forall Q l -> Q x -> Forall Q (replace_nth n x l).
Proof.
  intros Hl Hx. revert n. induction Hl as [| y l Hy Hl IH]; intros n.
  - destruct n; cbn; constructor.
  - destruct n; cbn; constructor; auto.
Qed.

Lemma Forall_nth_error A (Q : A -> Prop) (l : list A) (n : nat) (x : A) :
  Forall Q l -> nth_error l n = Some x -> Q x.
Proof.
  intros Hl Hn. apply nth_error_In in Hn.
  rewrite Forall_forall in Hl. auto.
Qed.

Lemma CallsAll_interleave (P : Call -> Prop) (sched : Schedule) :
  forall ps, Forall (CallsAll P) ps -> CallsAll P (interleave sched ps).
Proof.
  induction sched as [| n sched IH]; intros ps Hps; cbn.
  - now apply CallsAll_sequence_.
  - destruct (nth_error ps n) as [[u | c k] |] eqn:En; auto.
    pose proof (Forall_nth_error _ Hps En) as [Hc Hk].
    split; [exact Hc|]. intros r.
    apply IH, Forall_replace_nth; auto.
Qed.

Lemma CallsAll_run W A (P : Call -> Prop) (h : Handler W) (p : Prog A) :
  CallsAll P p ->
  forall w, Forall (fun e => P (ev_call e)) (trace (run h p w)).
Proof.
  induction p as [a | c k IH]; cbn; intros Hp w.
  - constructor.
  - destruct Hp as [Hc Hk]. destruct (h c w) as [r w1].
    specialize (IH r (Hk r) w1).
    destruct (run h (k r) w1) as [[a w2] tr]. cbn in *.
    constructor; auto.
Qed.

(** A run that issues no re-pointing call leaves alone whatever only
    re-pointing calls may change. *)
Lemma run_frame W A X (h : Handler W) (obs : W -> X) (p : Prog A) :
  (forall c w, repoints c = false -> obs (snd (h c w)) = obs w) ->
  forall w,
    existsb repoints (calls (trace (run h p w))) = false ->
    obs (world (run h p w)) = obs w.
Proof.
  intros Hframe. induction p as [a | c k IH]; cbn; intros w Hno.
  - reflexivity.
  - specialize (Hframe c w). destruct (h c w) as [r w1].
    specialize (IH r w1).
    destruct (run h (k r) w1) as [[a w2] tr]. cbn in *.
    apply orb_false_iff in Hno as [Hc Htr].
    rewrite (IH Htr). auto.
Qed.

(** ** Facts about the simulated deployment *)

Lemma Sim_get_Key (k : InstanceKey) (ns : list Instance) :
  Key (Sim.get k ns) = k.
Proof.
  unfold Sim.get, Sim.lookup.
  destruct (find _ ns) as [i |] eqn:E; [|reflexivity].
  apply find_some in E as [_ E]. now apply KeyEquals_eq.
Qed.

Lemma Sim_stopAnswersForNode (fails : Call -> bool) :
  stopAnswersForNode (Sim.handler fails).
Proof.
  intros k w. cbn. unfold Sim.drive.
  destruct (fails (StopSlave k)); cbn; apply Sim_get_Key.
Qed.

(** ** MoveUp *)

(** Claim C2. On the path of [MoveUp] that ends with its audit record, the
    trace is exactly: the three reads, the lease on the target, the lease on
    its upstream, Stop of the upstream, Stop of the target, StartUntil of the
    target at the self coordinates the stopped upstream answered,
    ChangeMasterTo of the target to the upstream's master at the executed
    coordinates of that same answer, Start of the target, Start of the
    upstream, the audit record and the release of both leases; the operator
    returns no error. *)
Theorem MoveUp_success_sequence :
  forall (IM : InstanceMethods) W (h : Handler W) (w : W) (target : InstanceKey),
    stopAnswersForNode h ->
    audited (trace (run h (MoveUp target) w)) = true ->
    exists instance0 rinstance upstream0 t1 t2 upstream instance1 instance2
           instance3 started upstream1 e1,
      trace (run h (MoveUp target) w) =
        [ Ev (ReadTopologyInstance target) (instance0, None);
          Ev (ReadInstance (Key instance0)) rinstance;
          Ev (ReadTopologyInstance (MasterKey instance0)) (upstream0, None);
          Ev (BeginMaintenance target "orchestrator" "move up") (t1, None);
          Ev (BeginMaintenance (Key upstream0) "orchestrator"
                ("child " ++ fmtKey target ++ " moves up")) (t2, None);
          Ev (StopSlave (Key upstream0)) (upstream, None);
          Ev (StopSlave target) (instance1, None);
          Ev (StartSlaveUntilMasterCoordinates target
                (SelfBinlogCoordinates upstream)) (instance2, None);
          Ev (ChangeMasterTo target (MasterKey upstream)
                (ExecBinlogCoordinates upstream)) (instance3, None);
          Ev (StartSlave target) started;
          Ev (StartSlave (Key upstream0)) (upstream1, e1);
          Ev (AuditOperation "move-up" target
                ("moved up " ++ fmtKey target ++ ". Previous master: "
                   ++ fmtKey (Key upstream1))) tt;
          Ev (EndMaintenance t2) tt;
          Ev (EndMaintenance t1) tt ]
      /\ snd (result (run h (MoveUp target) w)) = None.
Proof.
  intros IM W h w target HK.
  unfold MoveUp, MoveUp_Cleanup, GetInstanceMaster. cbn.
  explore h; try discriminate.
  intros _.
  match goal with
  | E : h (StopSlave ?k) ?w0 = _ |- context [StartSlave (Key ?i)] =>
      let Hk := fresh in
      assert (Hk : Key i = k) by (pose proof (HK k w0) as Hk; rewrite E in Hk; exact Hk);
      rewrite Hk
  end.
  do 12 eexists. split; reflexivity.
Qed.

(** Under the contract of the eligibility predicates, the path that ends
    with the audit record is the one on which [MoveUp] returns no error. *)
Lemma MoveUp_success_audited (IM : InstanceMethods) W (h : Handler W) (w : W)
    (target : InstanceKey) :
  reasoned CanMove -> reasoned2 CanReplicateFrom ->
  snd (result (run h (MoveUp target) w)) = None ->
  audited (trace (run h (MoveUp target) w)) = true.
Proof.
  intros HM HR.
  unfold MoveUp, MoveUp_Cleanup, GetInstanceMaster. cbn.
  explore h; cbn; intros Hres; try discriminate Hres; try reflexivity; exfalso.
  - match goal with
    | Hp : CanMove ?i = (?b, _), Hb : negb ?b = true |- _ =>
        pose proof (HM i) as Hr; rewrite Hp in Hr; cbn in *;
        destruct b; [discriminate Hb | now apply Hr]
    end.
  - match goal with
    | Hp : CanReplicateFrom ?i ?j = (?b, _), Hb : negb ?b = true |- _ =>
        pose proof (HR i j) as Hr; rewrite Hp in Hr; cbn in *;
        destruct b; [discriminate Hb | now apply Hr]
    end.
Qed.

Lemma MoveUp_success_sequence_witness :
  stopAnswersForNode (Sim.handler Sim.noFault)
  /\ audited (trace (run (Sim.handler Sim.noFault)
                       (@MoveUp Sim.methods Sim.kT) Sim.chain)) = true
  /\ snd (result (run (Sim.handler Sim.noFault)
                    (@MoveUp Sim.methods Sim.kT) Sim.chain)) = None.
Proof.
  split; [apply Sim_stopAnswersForNode | split; [reflexivity |]].
  destruct (@MoveUp_success_sequence Sim.methods _ (Sim.handler Sim.noFault)
              Sim.chain Sim.kT (Sim_stopAnswersForNode _) eq_refl)
    as (? & ? & ? & ? & ? & ? & ? & ? & ? & ? & ? & ? & _ & H).
  exact H.
Defined.

(** ** MoveBelow *)

(** Claim C5. Once [MoveBelow] has stopped both nodes, with answers
    [instance1] for the target and [sibling1] for the sibling: when the
    target's executed coordinates are smaller, the only StartUntil is on the
    target, up to the sibling's executed coordinates; when the sibling's are
    smaller, the only StartUntil is on the sibling, up to the target's; when
    they are equal there is none. If the StartUntil did not fail, the next
    driver call is ChangeMasterTo of the target to the sibling's key and self
    coordinates (as last answered for the sibling); the run ends with Start of
    the target and Start of the sibling. *)
Theorem MoveBelow_equalize :
  forall (IM : InstanceMethods) W (h : Handler W) (w : W)
         (target sibling : InstanceKey) (instance1 sibling1 : Instance)
         (rest : list (Call * (Instance * option error))),
    driverLog (trace (run h (MoveBelow target sibling) w)) =
      (StopSlave target, (instance1, None))
        :: (StopSlave sibling, (sibling1, None)) :: rest ->
    (SmallerThan (ExecBinlogCoordinates instance1)
       (ExecBinlogCoordinates sibling1) = true ->
     exists instance2 e rest',
       rest = (StartSlaveUntilMasterCoordinates target
                 (ExecBinlogCoordinates sibling1), (instance2, e)) :: rest'
       /\ map fst rest' =
            (match e with
             | None => [ChangeMasterTo target (Key sibling1)
                          (SelfBinlogCoordinates sibling1)]
             | Some _ => []
             end ++ [StartSlave target; StartSlave sibling])%list)
    /\ (SmallerThan (ExecBinlogCoordinates sibling1)
          (ExecBinlogCoordinates instance1) = true ->
        exists sibling2 e rest',
          rest = (StartSlaveUntilMasterCoordinates sibling
                    (ExecBinlogCoordinates instance1), (sibling2, e)) :: rest'
          /\ map fst rest' =
               (match e with
                | None => [ChangeMasterTo target (Key sibling2)
                             (SelfBinlogCoordinates sibling2)]
                | Some _ => []
                end ++ [StartSlave target; StartSlave sibling])%list)
    /\ (CoordEquals (ExecBinlogCoordinates instance1)
          (ExecBinlogCoordinates sibling1) = true ->
        map fst rest =
          [ChangeMasterTo target (Key sibling1) (SelfBinlogCoordinates sibling1);
           StartSlave target; StartSlave sibling]).
Proof.
  intros IM W h w target sibling instance1 sibling1 rest.
  unfold MoveBelow, MoveBelow_ChangeMaster, MoveBelow_Cleanup. cbn.
  explore h; intros H; try discriminate H;
    injection H as <- <- <-;
    (split; [| split]); intros Hc;
    try congruence;
    try (apply CoordEquals_not_smaller in Hc as [? ?]; congruence);
    try (apply SmallerThan_asym in Hc; congruence);
    try (do 3 eexists; split; reflexivity);
    try reflexivity.
Qed.

(** ** MatchBelow *)

Lemma matcher_failure_trace :
  forall (IM : InstanceMethods) W (h : Handler W) (w : W)
         (target other : InstanceKey) (lockTarget lockOther : bool) (e : error),
    In e (matcherErrors
            (trace (run h (MatchBelow target other lockTarget lockOther) w))) ->
    driverCalls (trace (run h (MatchBelow target other lockTarget lockOther) w))
      = [StopSlave target; StartSlave target]
    /\ existsb repoints
         (calls (trace (run h (MatchBelow target other lockTarget lockOther) w)))
       = false
    /\ snd (result (run h (MatchBelow target other lockTarget lockOther) w))
       = Some e.
Proof.
  intros IM W h w target other lockTarget lockOther e.
  unfold MatchBelow, MatchBelow_lockOther, MatchBelow_locked, MatchBelow_Cleanup.
  cbn.
  explore h; cbn; intros H; repeat destruct H as [H | H]; try contradiction;
    subst; repeat split.
Qed.

(** Claim C4. When a call of the matcher fails in [MatchBelow] -- no last
    pseudo-GTID entry on the target, the entry not found on the other node, or
    no coordinates to match because the target is ahead -- the driver is only
    asked to stop and then to start the target: there is no ChangeMasterTo,
    the operator returns the matcher's error, and whatever only re-pointing
    calls can change (the upstream of every node) is as it was. *)
Theorem MatchBelow_matcher_failure :
  forall (IM : InstanceMethods) W (h : Handler W) (w : W)
         (target other : InstanceKey) (lockTarget lockOther : bool) (e : error),
    In e (matcherErrors
            (trace (run h (MatchBelow target other lockTarget lockOther) w))) ->
    existsb isChangeMaster
      (calls (trace (run h (MatchBelow target other lockTarget lockOther) w)))
      = false
    /\ snd (result (run h (MatchBelow target other lockTarget lockOther) w))
       = Some e
    /\ driverCalls (trace (run h (MatchBelow target other lockTarget lockOther) w))
       = [StopSlave target; StartSlave target]
    /\ forall X (upstreamOf : W -> X),
         (forall c w', repoints c = false ->
                       upstreamOf (snd (h c w')) = upstreamOf w') ->
         upstreamOf (world (run h (MatchBelow target other lockTarget lockOther) w))
         = upstreamOf w.
Proof.
  intros IM W h w target other lockTarget lockOther e H.
  destruct (@matcher_failure_trace IM W h w target other lockTarget
              lockOther e H) as (Hd & Hr & He).
  repeat split; try assumption.
  - destruct (existsb isChangeMaster _) eqn:Hc; [| reflexivity].
    apply existsb_exists in Hc as (c & Hin & Hc).
    assert (Hx : existsb repoints
                   (calls (trace (run h (MatchBelow target other lockTarget
                                           lockOther) w))) = true).
    { apply existsb_exists. exists c. split; [exact Hin |].
      destruct c; try discriminate; reflexivity. }
    congruence.
  - intros X upstreamOf Hframe. now apply run_frame.
Qed.

Lemma Sim_update_upstreams (k : InstanceKey) (f : Instance -> Instance)
    (ns : list Instance) :
  (forall i, Key (f i) = Key i /\ MasterKey (f i) = MasterKey i) ->
  map (fun i => (Key i, MasterKey i)) (Sim.update k f ns)
  = map (fun i => (Key i, MasterKey i)) ns.
Proof.
  intros Hf. unfold Sim.update. rewrite map_map. apply map_ext.
  intros i. destruct (KeyEquals (Key i) k); [| reflexivity].
  destruct (Hf i) as [-> ->]. reflexivity.
Qed.

Lemma Sim_drive_upstreams (fails : bool) (k : InstanceKey)
    (f : Instance -> Instance) (w : Sim.World) :
  (forall i, Key (f i) = Key i /\ MasterKey (f i) = MasterKey i) ->
  Sim_upstreams (snd (Sim.drive fails k f w)) = Sim_upstreams w.
Proof.
  intros Hf. unfold Sim.drive, Sim_upstreams.
  destruct fails; cbn; [reflexivity |]. now apply Sim_update_upstreams.
Qed.

(** In the simulated deployment only re-pointing calls change the graph. *)
Lemma Sim_frame (fails : Call -> bool) (c : Call) (w : Sim.World) :
  repoints c = false ->
  Sim_upstreams (snd (Sim.handler fails c w)) = Sim_upstreams w.
Proof.
  destruct c; cbn; intros Hc; try discriminate;
    try (apply Sim_drive_upstreams; intros i; split; reflexivity);
    repeat match goal with
    | |- context [match ?x with _ => _ end] => destruct x
    end; reflexivity.
Qed.

Lemma MatchBelow_matcher_failure_witness :
  In "no pseudo-GTID entry found"
    (matcherErrors
       (trace (run (Sim.handler failMatcher)
                 (@MatchBelow Sim.methods Sim.kT Sim.kS true false) Sim.chain)))
  /\ snd (result (run (Sim.handler failMatcher)
                    (@MatchBelow Sim.methods Sim.kT Sim.kS true false) Sim.chain))
     = Some "no pseudo-GTID entry found"
  /\ Sim_upstreams
       (world (run (Sim.handler failMatcher)
                 (@MatchBelow Sim.methods Sim.kT Sim.kS true false) Sim.chain))
     = Sim_upstreams Sim.chain.
Proof.
  assert (H : In "no pseudo-GTID entry found"
                (matcherErrors
                   (trace (run (Sim.handler failMatcher)
                             (@MatchBelow Sim.methods Sim.kT Sim.kS true false)
                             Sim.chain)))) by (vm_compute; auto).
  split; [exact H |].
  destruct (@MatchBelow_matcher_failure Sim.methods _ (Sim.handler failMatcher)
              Sim.chain Sim.kT Sim.kS true false _ H) as (_ & He & _ & Hf).
  split; [exact He |].
  apply (Hf _ Sim_upstreams). intros c w'. apply Sim_frame.
Defined.

Lemma MoveBelow_equalize_witness :
  exists instance1 sibling1 rest,
    driverLog (trace (run (Sim.handler Sim.noFault)
                        (@MoveBelow Sim.methods Sim.kT Sim.kS) Sim.chain))
    = (StopSlave Sim.kT, (instance1, None))
        :: (StopSlave Sim.kS, (sibling1, None)) :: rest
    /\ SmallerThan (ExecBinlogCoordinates instance1)
         (ExecBinlogCoordinates sibling1) = true
    /\ exists instance2 e rest',
         rest = (StartSlaveUntilMasterCoordinates Sim.kT
                   (ExecBinlogCoordinates sibling1), (instance2, e)) :: rest'.
Proof.
  do 3 eexists. split; [vm_compute; reflexivity |].
  split; [reflexivity |].
  edestruct (@MoveBelow_equalize Sim.methods _ (Sim.handler Sim.noFault)
               Sim.chain Sim.kT Sim.kS) as (H1 & _ & _);
    [vm_compute; reflexivity |].
  destruct (H1 eq_refl) as (instance2 & e & rest' & Hrest & _).
  exists instance2, e, rest'. exact Hrest.
Defined.

(** ** MakeCoMaster *)

(** Claim C7. Let [MakeCoMaster] have read the target and its upstream. If the
    target's key is the upstream's master key, or no inventory lookup of the
    upstream's master key in the run answers not-found, then the operator
    returns a precondition error, and its trace holds no driver call, no lease
    and no audit record. *)
Theorem MakeCoMaster_refused :
  forall (IM : InstanceMethods) W (h : Handler W) (w : W)
         (target : InstanceKey) (instance upstream : Instance),
    reasoned CanMoveAsCoMaster ->
    reasoned CanMove ->
    probeLog (trace (run h (MakeCoMaster target) w)) =
      [(target, (instance, None)); (MasterKey instance, (upstream, None))] ->
    (KeyEquals target (MasterKey upstream) = true
     \/ ~ In (MasterKey upstream, false)
            (lookupLog (trace (run h (MakeCoMaster target) w)))) ->
    (exists e,
        snd (result (run h (MakeCoMaster target) w)) = Some e
        /\ MakeCoMaster_refusal target upstream e)
    /\ existsb isDriver (calls (trace (run h (MakeCoMaster target) w))) = false
    /\ existsb isBegin (calls (trace (run h (MakeCoMaster target) w))) = false
    /\ audited (trace (run h (MakeCoMaster target) w)) = false.
Proof.
  intros IM W h w target instance upstream HA HM.
  unfold MakeCoMaster, MakeCoMaster_Cleanup, GetInstanceMaster,
    MakeCoMaster_refusal.
  cbn.
  explore h; cbn; intros HP Hpre; try discriminate HP;
    injection HP; intros; subst;
    try solve [destruct Hpre as [Hpre | Hpre];
               [congruence | exfalso; apply Hpre; cbn; auto 10]].
  - (* refused by CanMoveAsCoMaster *)
    match goal with
    | Hp : CanMoveAsCoMaster ?i = (?b, ?o), Hb : negb ?b = true |- _ =>
        pose proof (HA i) as Hr; rewrite Hp in Hr; cbn in Hr;
        destruct b; [discriminate Hb |];
        destruct o as [e |]; [| exfalso; now apply Hr]
    end.
    repeat split. exists e. split; [reflexivity |]. left. eauto.
  - (* refused by CanMove *)
    match goal with
    | Hp : CanMove ?i = (?b, ?o), Hb : negb ?b = true |- _ =>
        pose proof (HM i) as Hr; rewrite Hp in Hr; cbn in Hr;
        destruct b; [discriminate Hb |];
        destruct o as [e |]; [| exfalso; now apply Hr]
    end.
    repeat split. exists e. split; [reflexivity |]. right. left. eauto.
  - (* already co-master *)
    repeat split. eexists. split; [reflexivity |]. right. right. left.
    reflexivity.
  - (* the upstream has a known master *)
    repeat split. eexists. split; [reflexivity |]. right. right. right.
    reflexivity.
Qed.

Lemma MakeCoMaster_refused_witness :
  reasoned (@CanMoveAsCoMaster Sim.methods)
  /\ reasoned (@CanMove Sim.methods)
  /\ KeyEquals kA (MasterKey (Sim.get kB (Sim.nodes coMasters))) = true
  /\ exists e,
       snd (result (run (Sim.handler Sim.noFault)
                      (@MakeCoMaster Sim.methods kA) coMasters)) = Some e.
Proof.
  assert (HA : reasoned (@CanMoveAsCoMaster Sim.methods)).
  { intros i. cbn. destruct (IsLastCheckValid i); cbn; congruence. }
  assert (HM : reasoned (@CanMove Sim.methods)).
  { intros i. cbn. destruct (IsLastCheckValid i); cbn; congruence. }
  split; [exact HA | split; [exact HM | split; [reflexivity |]]].
  destruct (@MakeCoMaster_refused Sim.methods _ (Sim.handler Sim.noFault)
              coMasters kA (Sim.get kA (Sim.nodes coMasters))
              (Sim.get kB (Sim.nodes coMasters)) HA HM eq_refl
              (or_introl eq_refl))
    as ((e & He & _) & _).
  exists e. exact He.
Defined.

(** ** Leases *)

(** Claim C8, as the code has it. The leases of [MoveUp], [MoveBelow] and
    [MakeCoMaster] are asked for by role: first the target's, then the
    upstream's (as answered by the read of the upstream) or the sibling's. *)
Theorem lease_order_by_role :
  forall (IM : InstanceMethods) W (h : Handler W) (w : W)
         (target sibling : InstanceKey),
    (let tr := trace (run h (MoveUp target) w) in
     beginKeys tr = [] \/ beginKeys tr = [target]
     \/ exists instance upstream,
          probeLog tr = [(target, (instance, None));
                         (MasterKey instance, (upstream, None))]
          /\ beginKeys tr = [target; Key upstream])
    /\ (let tr := trace (run h (MoveBelow target sibling) w) in
        beginKeys tr = [] \/ beginKeys tr = [target]
        \/ beginKeys tr = [target; sibling])
    /\ (let tr := trace (run h (MakeCoMaster target) w) in
        beginKeys tr = [] \/ beginKeys tr = [target]
        \/ exists instance upstream,
             probeLog tr = [(target, (instance, None));
                            (MasterKey instance, (upstream, None))]
             /\ beginKeys tr = [target; Key upstream]).
Proof.
  intros IM W h w target sibling. split; [| split].
  - unfold MoveUp, MoveUp_Cleanup, GetInstanceMaster. cbn.
    explore h; cbn; auto; right; right; do 2 eexists; split; reflexivity.
  - unfold MoveBelow, MoveBelow_ChangeMaster, MoveBelow_Cleanup. cbn.
    explore h; cbn; auto.
  - unfold MakeCoMaster, MakeCoMaster_Cleanup, GetInstanceMaster. cbn.
    explore h; cbn; auto; right; right; do 2 eexists; split; reflexivity.
Qed.

(** Claim C8, counterexample. On the same pair of siblings the leases are
    taken in either order, depending on which one is the target; in the first
    run the lease on the greater key comes first. *)
Lemma lease_order_not_by_key :
  beginKeys (trace (run (Sim.handler Sim.noFault)
                      (@MoveBelow Sim.methods Sim.kT Sim.kS) Sim.chain))
  = [Sim.kT; Sim.kS]
  /\ KeyLess Sim.kS Sim.kT = true
  /\ beginKeys (trace (run (Sim.handler Sim.noFault)
                         (@MoveBelow Sim.methods Sim.kS Sim.kT) Sim.chain))
     = [Sim.kS; Sim.kT].
Proof.
  repeat split; vm_compute; reflexivity.
Qed.

(** *** Refused leases *)

Lemma failedLeases_app (t1 t2 : list Event) :
  failedLeases (t1 ++ t2) = (failedLeases t1 ++ failedLeases t2)%list.
Proof. apply flat_map_app. Qed.

Lemma leavesLease_not_failed (k : InstanceKey) (tr : list Event) :
  Forall (fun e => leavesLease k (ev_call e)) tr -> ~ In k (failedLeases tr).
Proof.
  induction 1 as [| e tr He _ IH]; cbn; [tauto |].
  intros Hin. apply in_app_or in Hin as [Hin | Hin]; [| tauto].
  destruct e as [c r]. destruct c; cbn in *; try contradiction.
  destruct (snd r); cbn in Hin; [| contradiction].
  destruct Hin as [<- | []]. rewrite KeyEquals_refl in He. discriminate.
Qed.

(** A goroutine of [enslaveSiblings] never asks for the lease of the node
    the siblings are matched below. *)
Lemma enslaveSibling_leavesLease (IM : InstanceMethods)
    (instanceKey siblingKey : InstanceKey) :
  KeyEquals siblingKey instanceKey = false ->
  CallsAll (leavesLease instanceKey) (enslaveSibling instanceKey siblingKey).
Proof.
  intros Hne.
  unfold enslaveSibling, MatchBelow, MatchBelow_lockOther, MatchBelow_locked,
    MatchBelow_Cleanup.
  cbn. split; [exact I |]. intros r. destruct_resp. cbn. rewrite Hne.
  repeat first
    [ exact I
    | exact Hne
    | split
    | intros ?
    | progress destruct_resp
    | progress cbn
    | match goal with
      | |- context [match ?x with _ => _ end] => destruct x
      end ].
Qed.

Lemma enslaveSiblings_leavesLease (IM : InstanceMethods) W (h : Handler W)
    (sched : Schedule) (instanceKey : InstanceKey) (siblings : list Instance)
    (w : W) :
  ~ In instanceKey
      (failedLeases
         (trace (run h
                   (interleave sched
                      (map (fun sibling => enslaveSibling instanceKey (Key sibling))
                         (filter (fun sibling =>
                                    SQLThreadUpToDate sibling
                                    && negb (KeyEquals (Key sibling) instanceKey))
                            siblings))) w))).
Proof.
  apply leavesLease_not_failed, CallsAll_run, CallsAll_interleave.
  apply Forall_map, Forall_forall. intros sibling Hin.
  apply filter_In in Hin as [_ Hf]. apply andb_true_iff in Hf as [_ Hf].
  apply enslaveSibling_leavesLease. now destruct (KeyEquals (Key sibling) instanceKey).
Qed.

Lemma MoveUp_refusedForLease (IM : InstanceMethods) W (h : Handler W) (w : W)
    (target k : InstanceKey) :
  In k (failedLeases (trace (run h (MoveUp target) w))) ->
  refusedForLease k (run h (MoveUp target) w).
Proof.
  unfold refusedForLease, MoveUp, MoveUp_Cleanup, GetInstanceMaster. cbn.
  explore h; refused.
Qed.

Lemma MoveBelow_refusedForLease (IM : InstanceMethods) W (h : Handler W)
    (w : W) (target sibling k : InstanceKey) :
  In k (failedLeases (trace (run h (MoveBelow target sibling) w))) ->
  refusedForLease k (run h (MoveBelow target sibling) w).
Proof.
  unfold refusedForLease, MoveBelow, MoveBelow_ChangeMaster, MoveBelow_Cleanup.
  cbn. explore h; refused.
Qed.

Lemma MakeCoMaster_refusedForLease (IM : InstanceMethods) W (h : Handler W)
    (w : W) (target k : InstanceKey) :
  In k (failedLeases (trace (run h (MakeCoMaster target) w))) ->
  refusedForLease k (run h (MakeCoMaster target) w).
Proof.
  unfold refusedForLease, MakeCoMaster, MakeCoMaster_Cleanup, GetInstanceMaster.
  cbn. explore h; refused.
Qed.

Lemma ResetSlaveOperation_refusedForLease (IM : InstanceMethods) W
    (h : Handler W) (w : W) (target k : InstanceKey) :
  In k (failedLeases (trace (run h (ResetSlaveOperation target) w))) ->
  refusedForLease k (run h (ResetSlaveOperation target) w).
Proof.
  unfold refusedForLease, ResetSlaveOperation, ResetSlaveOperation_Reset,
    ResetSlaveOperation_Cleanup.
  cbn. explore h; refused.
Qed.

Lemma MatchBelow_refusedForLease (IM : InstanceMethods) W (h : Handler W)
    (w : W) (target other k : InstanceKey) (lockTarget lockOther : bool) :
  In k (failedLeases
          (trace (run h (MatchBelow target other lockTarget lockOther) w))) ->
  refusedForLease k (run h (MatchBelow target other lockTarget lockOther) w).
Proof.
  unfold refusedForLease, MatchBelow, MatchBelow_lockOther, MatchBelow_locked,
    MatchBelow_Cleanup.
  cbn. explore h; refused.
Qed.

Lemma MakeMaster_refusedForLease (IM : InstanceMethods) W (h : Handler W)
    (w : W) (sched : Schedule) (target : InstanceKey) :
  In target (failedLeases (trace (run h (MakeMaster sched target) w))) ->
  refusedForLease target (run h (MakeMaster sched target) w).
Proof.
  unfold refusedForLease, MakeMaster, MakeMaster_promote, MakeMaster_Cleanup,
    enslaveSiblings.
  cbn.
  explore h; try solve [refused];
    fanout h run_bind; explore h;
    unfold failedLeases; cbn; rewrite ?flat_map_app; cbn;
    intros H; exfalso;
    repeat (apply in_app_or in H as [H | H]); try contradiction;
    match goal with
    | Hrun : run h (interleave ?s (map _ (filter _ ?l))) ?w0 = _ |- _ =>
        pose proof (@enslaveSiblings_leavesLease IM W h s target l w0) as Hno;
        rewrite Hrun in Hno; exact (Hno H)
    end.
Qed.

Lemma MakeLocalMaster_refusedForLease (IM : InstanceMethods) W (h : Handler W)
    (w : W) (sched : Schedule) (target : InstanceKey) :
  In target (failedLeases (trace (run h (MakeLocalMaster sched target) w))) ->
  refusedForLease target (run h (MakeLocalMaster sched target) w).
Proof.
  unfold refusedForLease, MakeLocalMaster, MakeLocalMaster_Cleanup,
    enslaveSiblings, MatchBelow, MatchBelow_lockOther, MatchBelow_locked,
    MatchBelow_Cleanup.
  cbn.
  explore h; try solve [refused];
    fanout h run_bind; explore h;
    unfold failedLeases; cbn; rewrite ?flat_map_app; cbn;
    intros H; exfalso;
    repeat (apply in_app_or in H as [H | H]); try contradiction;
    match goal with
    | Hrun : run h (interleave ?s (map _ (filter _ ?l))) ?w0 = _ |- _ =>
        pose proof (@enslaveSiblings_leavesLease IM W h s target l w0) as Hno;
        rewrite Hrun in Hno; exact (Hno H)
    end.
Qed.

(** Claim C3, as the code has it. When one of its own leases is refused -- for
    [MakeMaster] and [MakeLocalMaster], which also run [MatchBelow] on the
    siblings, the lease on the target -- an operator returns the error "Cannot
    begin maintenance on" that key, writes no audit record, and asks the
    driver for no Stop, StopNicely, StartUntil, ChangeMasterTo, Reset or
    SetReadOnly: the driver calls of the run, if any, are the Start calls of
    the operator's cleanup. *)
Theorem lease_refused_no_mutation :
  forall (IM : InstanceMethods) W (h : Handler W) (w : W) (op : Operator)
         (k : InstanceKey),
    In k (failedLeases (trace (run h (operate op) w))) ->
    (fansOut op = true -> k = targetOf op) ->
    snd (result (run h (operate op) w)) = Some (cannotBeginMaintenance k)
    /\ existsb isMutation (calls (trace (run h (operate op) w))) = false
    /\ audited (trace (run h (operate op) w)) = false.
Proof.
  intros IM W h w op k Hin Hown.
  destruct op; cbn [operate fansOut targetOf] in *.
  - now apply MoveUp_refusedForLease.
  - now apply MoveBelow_refusedForLease.
  - now apply MakeCoMaster_refusedForLease.
  - now apply ResetSlaveOperation_refusedForLease.
  - now apply MatchBelow_refusedForLease.
  - rewrite (Hown eq_refl) in *. now apply MakeMaster_refusedForLease.
  - rewrite (Hown eq_refl) in *. now apply MakeLocalMaster_refusedForLease.
Qed.

Lemma lease_refused_no_mutation_witness :
  In Sim.kS
    (failedLeases
       (trace (run (Sim.handler (failLease Sim.kS))
                 (@operate Sim.methods (OpMakeMaster [] Sim.kS)) Sim.chain)))
  /\ (fansOut (OpMakeMaster [] Sim.kS) = true ->
      Sim.kS = targetOf (OpMakeMaster [] Sim.kS))
  /\ snd (result (run (Sim.handler (failLease Sim.kS))
                    (@operate Sim.methods (OpMakeMaster [] Sim.kS)) Sim.chain))
     = Some (cannotBeginMaintenance Sim.kS).
Proof.
  assert (H : In Sim.kS
                (failedLeases
                   (trace (run (Sim.handler (failLease Sim.kS))
                             (@operate Sim.methods (OpMakeMaster [] Sim.kS))
                             Sim.chain)))) by (vm_compute; auto).
  split; [exact H | split; [reflexivity |]].
  exact (proj1 (@lease_refused_no_mutation Sim.methods _
                  (Sim.handler (failLease Sim.kS)) Sim.chain
                  (OpMakeMaster [] Sim.kS) Sim.kS H (fun _ => eq_refl))).
Defined.

(** Claim C3, counterexample. The lease on the target of [MoveUp] is refused,
    and both the target and its upstream are asked to start. *)
Lemma lease_refused_still_starts :
  failedLeases
    (trace (run (Sim.handler (failLease Sim.kT))
              (@MoveUp Sim.methods Sim.kT) Sim.chain)) = [Sim.kT]
  /\ driverCalls
       (trace (run (Sim.handler (failLease Sim.kT))
                 (@MoveUp Sim.methods Sim.kT) Sim.chain))
     = [StartSlave Sim.kT; StartSlave Sim.kU]
  /\ snd (result (run (Sim.handler (failLease Sim.kT))
                    (@MoveUp Sim.methods Sim.kT) Sim.chain))
     = Some "Cannot begin maintenance on {Hostname:t Port:3306}".
Proof.
  repeat split; vm_compute; reflexivity.
Qed.

(** ** MakeMaster *)

(** Claim C10. Whatever [SetReadOnly] answers in a run of [MakeMaster] -- a
    failure included -- the operator returns no error and the make-master
    audit record is written. *)
Theorem MakeMaster_ignores_SetReadOnly :
  forall (IM : InstanceMethods) W (h : Handler W) (w : W) (sched : Schedule)
         (target : InstanceKey) (answered : Instance) (e : option error),
    In (SetReadOnly target false, (answered, e))
       (driverLog (trace (run h (MakeMaster sched target) w))) ->
    snd (result (run h (MakeMaster sched target) w)) = None
    /\ In (AuditOperation "make-master" target
             ("made master of " ++ fmtKey target))
          (calls (trace (run h (MakeMaster sched target) w))).
Proof.
  intros IM W h w sched target answered e.
  unfold MakeMaster, MakeMaster_promote, MakeMaster_Cleanup, enslaveSiblings.
  cbn.
  explore h; try solve [cbn; intros []];
    fanout h run_bind; explore h; intros _;
    (split; [reflexivity |]);
    unfold calls; cbn; rewrite ?map_app; cbn;
    repeat first [left; reflexivity | right | apply in_or_app; right].
Qed.

Lemma MakeMaster_ignores_SetReadOnly_witness :
  In (SetReadOnly Sim.kS false,
      (Sim.get Sim.kS (Sim.nodes Sim.chain), Some "driver failure"))
     (driverLog (trace (run (Sim.handler failSetReadOnly)
                          (@MakeMaster Sim.methods [] Sim.kS) Sim.chain)))
  /\ snd (result (run (Sim.handler failSetReadOnly)
                    (@MakeMaster Sim.methods [] Sim.kS) Sim.chain)) = None.
Proof.
  assert (H : In (SetReadOnly Sim.kS false,
                  (Sim.get Sim.kS (Sim.nodes Sim.chain), Some "driver failure"))
                 (driverLog (trace (run (Sim.handler failSetReadOnly)
                                      (@MakeMaster Sim.methods [] Sim.kS)
                                      Sim.chain)))).
  { vm_compute. auto 20. }
  split; [exact H |].
  exact (proj1 (@MakeMaster_ignores_SetReadOnly Sim.methods _
                  (Sim.handler failSetReadOnly) Sim.chain [] Sim.kS _ _ H)).
Defined.

(** When the probe of the upstream succeeds, [MakeMaster] goes on to the
    promotion without looking at the upstream's state. *)
Lemma MakeMaster_probe_succeeds (IM : InstanceMethods) W (h : Handler W)
    (w w1 w2 : W) (sched : Schedule) (target : InstanceKey)
    (instance masterInstance : Instance) :
  h (ReadTopologyInstance target) w = (instance, None, w1) ->
  h (ReadTopologyInstance (MasterKey instance)) w1 = (masterInstance, None, w2) ->
  run h (MakeMaster sched target) w =
  let '(a, w', tr) :=
    run h (MakeMaster_promote sched target instance masterInstance) w2 in
  (a, w',
   Ev (ReadTopologyInstance target) (instance, None)
     :: Ev (ReadTopologyInstance (MasterKey instance)) (masterInstance, None)
     :: tr).
Proof.
  intros H1 H2. unfold MakeMaster. cbn. rewrite H1. cbn. rewrite H2. cbn.
  destruct (run h (MakeMaster_promote sched target instance masterInstance) w2)
    as [[a w'] tr].
  reflexivity.
Qed.

(** ** Topology rendering *)

Lemma indexed_In A (l : list A) (p : Ptr) (x : A) :
  In (p, x) (indexed l) -> In x l.
Proof. unfold indexed. apply in_combine_r. Qed.

Lemma In_indexed A (l : list A) (x : A) :
  In x l -> exists p, In (p, x) (indexed l).
Proof.
  unfold indexed. generalize 0%nat.
  induction l as [| y l IH]; intros n Hin; [destruct Hin |].
  destruct Hin as [-> | Hin]; cbn.
  - exists n. now left.
  - destruct (IH (S n) Hin) as [p Hp]. exists p. now right.
Qed.

(** The instances map answers every key that one of the instances has. *)
Lemma buildInstancesMap_fold (l : list (Ptr * Instance))
    (acc : list (InstanceKey * Ptr)) (k : InstanceKey) :
  (exists pi, In pi l /\ KeyEquals (Key (snd pi)) k = true)
  \/ mapGet KeyEquals acc k <> None ->
  mapGet KeyEquals
    (fold_left (fun instancesMap pi => mapSet instancesMap (Key (snd pi)) (fst pi))
       l acc) k <> None.
Proof.
  revert acc. induction l as [| pi l IH]; intros acc H; cbn.
  - destruct H as [(pi & [] & _) | H]; exact H.
  - apply IH. destruct H as [(pj & [<- | Hin] & Hk) | H].
    + right. unfold mapGet, mapSet. cbn. rewrite Hk. discriminate.
    + left. eauto.
    + right. unfold mapGet, mapSet in *. cbn.
      destruct (KeyEquals (Key (snd pi)) k); [discriminate | exact H].
Qed.

Lemma buildInstancesMap_known (instances : list Instance) (j : Instance)
    (k : InstanceKey) :
  In j instances -> KeyEquals (Key j) k = true ->
  mapGet KeyEquals (buildInstancesMap instances) k <> None.
Proof.
  intros Hin Hk. apply buildInstancesMap_fold. left.
  destruct (In_indexed _ _ Hin) as [p Hp]. exists (p, j). auto.
Qed.

(** The second loop assigns the root only at an instance whose master key
    is not in the instances map. *)
Lemma investigateSlaves_fold (instancesMap : list (InstanceKey * Ptr))
    (l : list (Ptr * Instance)) (st : ReplicationMap * option Ptr) :
  (forall pi, In pi l ->
              mapGet KeyEquals instancesMap (MasterKey (snd pi)) <> None) ->
  snd (fold_left
         (fun st pi =>
            let '(replicationMap, masterInstance) := st in
            match mapGet KeyEquals instancesMap (MasterKey (snd pi)) with
            | Some master =>
                (mapSet replicationMap master
                   (slavesOf replicationMap master ++ [fst pi])%list,
                 masterInstance)
            | None => (replicationMap, Some (fst pi))
            end) l st)
  = snd st.
Proof.
  revert st. induction l as [| pi l IH]; intros [replicationMap masterInstance] H.
  - reflexivity.
  - cbn [fold_left]. rewrite IH by (intros pj Hj; apply H; now right).
    specialize (H pi (or_introl eq_refl)).
    destruct (mapGet KeyEquals instancesMap (MasterKey (snd pi)));
      [reflexivity | contradiction].
Qed.

Lemma investigateSlaves_no_root (instances : list Instance) :
  (forall i, In i instances ->
             exists j, In j instances /\ KeyEquals (Key j) (MasterKey i) = true) ->
  snd (investigateSlaves instances (buildInstancesMap instances)) = None.
Proof.
  intros H. unfold investigateSlaves. rewrite investigateSlaves_fold; [reflexivity |].
  intros [p i] Hin. cbn.
  destruct (H i (indexed_In _ _ _ Hin)) as (j & Hj & Hk).
  now apply buildInstancesMap_known with (j := j).
Qed.

Lemma AsciiTopology_no_root (IM : InstanceMethods) W (h : Handler W)
    (w w' : W) (clusterName : string) (instances : list Instance) :
  h (ReadClusterInstances clusterName) w = (instances, None, w') ->
  snd (investigateSlaves instances (buildInstancesMap instances)) = None ->
  result (run h (AsciiTopology clusterName) w) = NilDereference.
Proof.
  intros Hread Hroot.
  unfold AsciiTopology. cbn. rewrite Hread. cbn.
  destruct (investigateSlaves instances (buildInstancesMap instances))
    as [replicationMap masterInstance].
  cbn in Hroot. subst masterInstance. reflexivity.
Qed.

(** The empty cluster. *)
Lemma AsciiTopology_empty_cluster (IM : InstanceMethods) W (h : Handler W)
    (w w' : W) (clusterName : string) :
  h (ReadClusterInstances clusterName) w = ([], None, w') ->
  result (run h (AsciiTopology clusterName) w) = NilDereference.
Proof.
  intros Hread. now apply AsciiTopology_no_root with (w' := w') (instances := []).
Qed.

(** Claim C9. When the cluster that [ReadClusterInstances] answers has no
    instance whose master key is missing from the instances map -- every
    instance's master key is the key of an instance of the cluster, as in an
    empty cluster or a pair of co-masters -- the root is never assigned, and
    [AsciiTopology] dereferences the nil root instead of returning. *)
Theorem AsciiTopology_needs_root :
  forall (IM : InstanceMethods) W (h : Handler W) (w w' : W)
         (clusterName : string) (instances : list Instance),
    h (ReadClusterInstances clusterName) w = (instances, None, w') ->
    (forall i, In i instances ->
               exists j, In j instances /\ KeyEquals (Key j) (MasterKey i) = true) ->
    snd (investigateSlaves instances (buildInstancesMap instances)) = None
    /\ result (run h (AsciiTopology clusterName) w) = NilDereference.
Proof.
  intros IM W h w w' clusterName instances Hread Hnoroot.
  pose proof (investigateSlaves_no_root _ Hnoroot) as Hroot.
  split; [exact Hroot |]. now apply AsciiTopology_no_root with (w' := w') (instances := instances).
Qed.

Lemma AsciiTopology_needs_root_witness :
  Sim.handler Sim.noFault (ReadClusterInstances "ab") coMasters
  = (Sim.nodes coMasters, None, coMasters)
  /\ (forall i, In i (Sim.nodes coMasters) ->
                exists j, In j (Sim.nodes coMasters)
                          /\ KeyEquals (Key j) (MasterKey i) = true)
  /\ result (run (Sim.handler Sim.noFault) (@AsciiTopology Sim.methods "ab")
               coMasters) = NilDereference.
Proof.
  assert (H : forall i, In i (Sim.nodes coMasters) ->
                exists j, In j (Sim.nodes coMasters)
                          /\ KeyEquals (Key j) (MasterKey i) = true).
  { intros i [<- | [<- | []]];
      [exists (Sim.get kB (Sim.nodes coMasters))
      | exists (Sim.get kA (Sim.nodes coMasters))];
      split; vm_compute; auto. }
  split; [reflexivity | split; [exact H |]].
  exact (proj2 (@AsciiTopology_needs_root Sim.methods _ (Sim.handler Sim.noFault)
                  coMasters coMasters "ab" (Sim.nodes coMasters) eq_refl H)).
Defined.

(** Conversely, the root is assigned as soon as some instance has a master
    key that the instances map does not know. *)
Lemma investigateSlaves_fold_root (instancesMap : list (InstanceKey * Ptr))
    (l : list (Ptr * Instance)) (st : ReplicationMap * option Ptr) :
  snd st <> None
  \/ (exists pi, In pi l
                 /\ mapGet KeyEquals instancesMap (MasterKey (snd pi)) = None) ->
  snd (fold_left
         (fun st pi =>
            let '(replicationMap, masterInstance) := st in
            match mapGet KeyEquals instancesMap (MasterKey (snd pi)) with
            | Some master =>
                (mapSet replicationMap master
                   (slavesOf replicationMap master ++ [fst pi])%list,
                 masterInstance)
            | None => (replicationMap, Some (fst pi))
            end) l st)
  <> None.
Proof.
  revert st. induction l as [| pi l IH]; intros [replicationMap masterInstance] H.
  - destruct H as [H | (pi & [] & _)]. exact H.
  - cbn [fold_left]. apply IH.
    destruct H as [H | (pj & [<- | Hin] & Hk)].
    + left. destruct (mapGet KeyEquals instancesMap (MasterKey (snd pi)));
        cbn in *; [exact H | discriminate].
    + left. rewrite Hk. cbn. discriminate.
    + right. eauto.
Qed.

Lemma investigateSlaves_root (instances : list Instance) :
  (exists i, In i instances
             /\ mapGet KeyEquals (buildInstancesMap instances) (MasterKey i)
                = None) ->
  snd (investigateSlaves instances (buildInstancesMap instances)) <> None.
Proof.
  intros (i & Hin & Hk). apply investigateSlaves_fold_root. right.
  destruct (In_indexed _ _ Hin) as [p Hp]. exists (p, i). auto.
Qed.

(** ** Restart after stop *)

(** The operators that run no other operator restart what they stop. *)
Lemma stops_restarted_single (IM : InstanceMethods) W (h : Handler W) (w : W)
    (op : Operator) :
  fansOut op = false ->
  stopAnswersForNode h ->
  stopsRestarted (calls (trace (run h (operate op) w))) = true.
Proof.
  intros Hop HK. destruct op; try discriminate Hop; clear Hop;
    cbn [operate];
    unfold MoveUp, MoveUp_Cleanup, GetInstanceMaster,
      MoveBelow, MoveBelow_ChangeMaster, MoveBelow_Cleanup,
      MakeCoMaster, MakeCoMaster_Cleanup,
      ResetSlaveOperation, ResetSlaveOperation_Reset,
      ResetSlaveOperation_Cleanup,
      MatchBelow, MatchBelow_lockOther, MatchBelow_locked, MatchBelow_Cleanup;
    cbn; explore h; stop_keys HK; cbn;
    rewrite ?KeyEquals_refl; cbn; rewrite ?orb_true_r; reflexivity.
Qed.

Lemma stopsRestarted_cons (c : Call) (cs : list Call) :
  stopsRestarted (c :: cs) =
  match c with
  | StopSlave k | StopSlaveNicely k => existsb (startsNode k) cs
  | _ => true
  end && stopsRestarted cs.
Proof. destruct c; reflexivity. Qed.

Lemma startsAll_app_l (cs1 cs2 : list Call) (pending : list InstanceKey) :
  startsAll cs1 pending -> startsAll (cs1 ++ cs2) pending.
Proof.
  unfold startsAll. apply Forall_impl. intros k H.
  rewrite existsb_app, H. reflexivity.
Qed.

Lemma startsAll_app_r (cs1 cs2 : list Call) (pending : list InstanceKey) :
  startsAll cs2 pending -> startsAll (cs1 ++ cs2) pending.
Proof.
  unfold startsAll. apply Forall_impl. intros k H.
  rewrite existsb_app, H. apply orb_true_r.
Qed.

Lemma stopsRestarted_app (cs1 cs2 : list Call) :
  stopsRestarted cs1 = true -> stopsRestarted cs2 = true ->
  stopsRestarted (cs1 ++ cs2) = true.
Proof.
  intros H1 H2. induction cs1 as [| c cs1 IH]; [exact H2 |].
  cbn [app]. rewrite stopsRestarted_cons in *.
  apply andb_true_iff in H1 as [Hc H1]. rewrite (IH H1), andb_true_r.
  destruct c; try reflexivity; rewrite existsb_app, Hc; reflexivity.
Qed.

(** One call of a thread whose pending nodes are [pending]. *)
Lemma restart_step (c : Call) (cs : list Call) (pending : list InstanceKey) :
  stopsRestarted cs = true ->
  startsAll cs (pendingAfter c pending) ->
  stopsRestarted (c :: cs) = true /\ startsAll (c :: cs) pending.
Proof.
  intros Hcs Hp. unfold startsAll in *. rewrite Forall_forall in Hp.
  split.
  - rewrite stopsRestarted_cons, Hcs, andb_true_r.
    destruct c; try reflexivity; apply Hp; now left.
  - apply Forall_forall. intros k Hk. cbn [existsb].
    destruct (startsNode k c) eqn:Hc; [reflexivity |]. cbn.
    apply Hp. destruct c; cbn in *; auto.
    apply filter_In. split; [exact Hk |]. now rewrite Hc.
Qed.

Lemma startsAll_cons (c : Call) (cs : list Call) (pending : list InstanceKey) :
  startsAll cs pending -> startsAll (c :: cs) pending.
Proof. apply (startsAll_app_r [c]). Qed.

Lemma Restarts_run W A (h : Handler W) (p : Prog A) :
  forall (pending : list InstanceKey) (w : W),
    Restarts pending p ->
    stopsRestarted (calls (trace (run h p w))) = true
    /\ startsAll (calls (trace (run h p w))) pending.
Proof.
  induction p as [a | c k IH]; intros pending w Hp; cbn in *.
  - subst pending. split; [reflexivity | constructor].
  - destruct (h c w) as [r w1]. specialize (IH r _ w1 (Hp r)).
    destruct (run h (k r) w1) as [[a w2] tr]. cbn in *.
    destruct IH as [H1 H2]. now apply restart_step.
Qed.

Lemma Restarts_bind A B (p : Prog A) (f : A -> Prog B) :
  forall pending,
    Restarts pending p -> (forall a, Restarts [] (f a)) ->
    Restarts pending (bind p f).
Proof.
  induction p as [a | c k IH]; intros pending Hp Hf; cbn in *.
  - subst pending. apply Hf.
  - intros r. apply IH; auto.
Qed.

Lemma Restarts_sequence_ W (h : Handler W) (ps : list (Prog unit)) :
  forall (pendings : list (list InstanceKey)) (w : W),
    RestartAll pendings ps ->
    stopsRestarted (calls (trace (run h (sequence_ ps) w))) = true
    /\ Forall (startsAll (calls (trace (run h (sequence_ ps) w)))) pendings.
Proof.
  induction ps as [| p ps IH]; intros pendings w Hall;
    inversion Hall as [| pending q pendings' ps' Hp Hps]; subst.
  - split; [reflexivity | constructor].
  - cbn [sequence_]. rewrite run_bind.
    destruct (@Restarts_run W unit h p pending w Hp) as [H1 H2].
    destruct (run h p w) as [[u w1] t1].
    destruct (IH pendings' w1 Hps) as [H3 H4].
    destruct (run h (sequence_ ps) w1) as [[u' w2] t2]. cbn in *.
    unfold calls in *. rewrite map_app. split.
    + now apply stopsRestarted_app.
    + constructor; [now apply startsAll_app_l |].
      eapply Forall_impl; [| exact H4]. intros l. apply startsAll_app_r.
Qed.

Lemma RestartAll_nth (pendings : list (list InstanceKey))
    (ps : list (Prog unit)) (n : nat) (p : Prog unit) :
  RestartAll pendings ps -> nth_error ps n = Some p ->
  exists pending, nth_error pendings n = Some pending /\ Restarts pending p.
Proof.
  intros Hall. revert n. induction Hall as [| pending q pendings ps Hq _ IH];
    intros [| n] Hn; cbn in *; try discriminate.
  - injection Hn as <-. eauto.
  - now apply IH.
Qed.

Lemma RestartAll_replace (pendings : list (list InstanceKey))
    (ps : list (Prog unit)) (n : nat) (pending : list InstanceKey)
    (p : Prog unit) :
  RestartAll pendings ps -> Restarts pending p ->
  RestartAll (replace_nth n pending pendings) (replace_nth n p ps).
Proof.
  intros Hall Hp. revert n. induction Hall as [| x q pendings ps Hq Hall IH];
    intros [| n]; cbn; constructor; auto; apply IH.
Qed.

Lemma startsAll_replace (c : Call) (cs : list Call)
    (pendings : list (list InstanceKey)) (n : nat) (pending : list InstanceKey) :
  nth_error pendings n = Some pending ->
  stopsRestarted cs = true ->
  Forall (startsAll cs) (replace_nth n (pendingAfter c pending) pendings) ->
  stopsRestarted (c :: cs) = true /\ Forall (startsAll (c :: cs)) pendings.
Proof.
  intros Hn Hcs. revert n Hn.
  induction pendings as [| x pendings IH]; intros [| n] Hn Hall;
    cbn in *; try discriminate.
  - injection Hn as ->. inversion Hall as [| y ys Hy Hys]; subst.
    destruct (@restart_step c cs pending Hcs Hy) as [H1 H2].
    split; [exact H1 |]. constructor; [exact H2 |].
    eapply Forall_impl; [| exact Hys]. intros l. apply startsAll_cons.
  - inversion Hall as [| y ys Hy Hys]; subst.
    destruct (IH n Hn Hys) as [H1 H2].
    split; [exact H1 |]. constructor; [now apply startsAll_cons | exact H2].
Qed.

Lemma Restarts_interleave W (h : Handler W) (sched : Schedule) :
  forall (ps : list (Prog unit)) (pendings : list (list InstanceKey)) (w : W),
    RestartAll pendings ps ->
    stopsRestarted (calls (trace (run h (interleave sched ps) w))) = true
    /\ Forall (startsAll (calls (trace (run h (interleave sched ps) w))))
         pendings.
Proof.
  induction sched as [| n sched IH]; intros ps pendings w Hall; cbn [interleave].
  - now apply Restarts_sequence_.
  - destruct (nth_error ps n) as [[u | c k] |] eqn:Hn; auto.
    destruct (@RestartAll_nth pendings ps n (Vis c k) Hall Hn)
      as (pending & Hpn & Hp).
    cbn [run]. destruct (h c w) as [r w1].
    specialize (IH (replace_nth n (k r) ps)
                  (replace_nth n (pendingAfter c pending) pendings) w1
                  (@RestartAll_replace pendings ps n _ (k r) Hall (Hp r))).
    destruct (run h (interleave sched (replace_nth n (k r) ps)) w1)
      as [[u w2] tr].
    cbn in *. destruct IH as [H1 H2].
    now apply startsAll_replace with (n := n) (pending := pending).
Qed.

Lemma MatchBelow_Restarts (IM : InstanceMethods) (instanceKey otherKey : InstanceKey)
    (requireInstanceMaintenance requireOtherMaintenance : bool) :
  Restarts []
    (MatchBelow instanceKey otherKey requireInstanceMaintenance
       requireOtherMaintenance).
Proof.
  unfold MatchBelow, MatchBelow_lockOther, MatchBelow_locked, MatchBelow_Cleanup.
  cbn.
  repeat first
    [ reflexivity
    | intros ?
    | progress destruct_resp
    | progress (cbn; rewrite ?KeyEquals_refl; cbn)
    | match goal with
      | |- context [match ?x with _ => _ end] => destruct x
      end ].
Qed.

Lemma enslaveSiblings_restarts (IM : InstanceMethods) W (h : Handler W)
    (sched : Schedule) (instanceKey : InstanceKey) (siblings : list Instance)
    (w : W) :
  stopsRestarted
    (calls (trace (run h
                     (interleave sched
                        (map (fun sibling =>
                                enslaveSibling instanceKey (Key sibling))
                           siblings)) w))) = true.
Proof.
  apply (@Restarts_interleave W h sched _ (map (fun _ => []) siblings) w).
  unfold RestartAll. induction siblings as [| sibling siblings IH]; cbn;
    constructor; [| exact IH].
  unfold enslaveSibling. apply Restarts_bind; [apply MatchBelow_Restarts |].
  intros a. reflexivity.
Qed.

(** [MakeMaster] stops nothing itself, and the goroutines it waits for
    restart what they stop, however they are scheduled. *)
Lemma MakeMaster_stops_restarted (IM : InstanceMethods) W (h : Handler W)
    (w : W) (sched : Schedule) (target : InstanceKey) :
  stopsRestarted (calls (trace (run h (MakeMaster sched target) w))) = true.
Proof.
  unfold MakeMaster, MakeMaster_promote, MakeMaster_Cleanup, enslaveSiblings.
  cbn.
  explore h; try reflexivity;
    fanout h run_bind; explore h;
    unfold calls; cbn; rewrite ?map_app; cbn [map]; rewrite ?app_nil_r;
    (apply stopsRestarted_app; [| reflexivity]);
    match goal with
    | Hrun : run h (interleave ?s (map ?f (filter ?g ?l))) ?w0 = _ |- _ =>
        pose proof (@enslaveSiblings_restarts IM W h s target (filter g l) w0)
          as Hok;
        rewrite Hrun in Hok; exact Hok
    end.
Qed.

(** Every operator but [MakeLocalMaster] restarts what it stops. *)
Lemma stops_restarted (IM : InstanceMethods) W (h : Handler W) (w : W)
    (op : Operator) :
  (forall sched target, op <> OpMakeLocalMaster sched target) ->
  stopAnswersForNode h ->
  stopsRestarted (calls (trace (run h (operate op) w))) = true.
Proof.
  intros Hop HK. destruct op;
    try (apply stops_restarted_single; [reflexivity | exact HK]).
  - apply MakeMaster_stops_restarted.
  - exfalso. now apply (Hop sched target).
Qed.

(** With a driver that cannot stop the target nicely, no run of
    [MakeLocalMaster] ever asks for a start. *)
Lemma MakeLocalMaster_failed_stop_not_restarted (IM : InstanceMethods) W
    (h : Handler W) (w : W) (sched : Schedule) (target : InstanceKey) :
  (forall w', snd (fst (h (StopSlaveNicely target) w')) <> None) ->
  existsb isStart (calls (trace (run h (MakeLocalMaster sched target) w)))
  = false.
Proof.
  intros Hfail.
  unfold MakeLocalMaster, MakeLocalMaster_Cleanup.
  cbn.
  explore h; try reflexivity;
    match goal with
    | E : h (StopSlaveNicely target) ?w0 = (_, None, _) |- _ =>
        exfalso; apply (Hfail w0); rewrite E; reflexivity
    end.
Qed.

(** Claim C1, at the failing input. [MakeLocalMaster] stops its target nicely;
    the inner [MatchBelow] is refused by an eligibility gate before it stops
    or starts anything, and [MakeLocalMaster] returns the error without any
    Start of the node it stopped. *)
Lemma MakeLocalMaster_leaves_target_stopped :
  calls (trace (run (Sim.handler Sim.noFault)
                  (@MakeLocalMaster Sim.methods [] Sim.kS) staleChain))
  = [ReadTopologyInstance Sim.kS; ReadInstance Sim.kU;
     ReadTopologyInstance Sim.kM; ReadSlaveInstances Sim.kU;
     BeginMaintenance Sim.kS "orchestrator"
       "siblings match below this%!(EXTRA inst.InstanceKey={s 3306})";
     StopSlaveNicely Sim.kS;
     ReadTopologyInstance Sim.kS; ReadTopologyInstance Sim.kM;
     ReadInstance Sim.kS;
     EndMaintenance 1%Z]
  /\ snd (result (run (Sim.handler Sim.noFault)
                    (@MakeLocalMaster Sim.methods [] Sim.kS) staleChain))
     = Some "last check invalid"
  /\ stopsRestarted
       (calls (trace (run (Sim.handler Sim.noFault)
                        (@MakeLocalMaster Sim.methods [] Sim.kS) staleChain)))
     = false.
Proof.
  repeat split; vm_compute; reflexivity.
Qed.

(** Claim C6, at the failing input. The upstream U of S answers the probe, is
    itself replicating and its last check is valid; [MakeMaster] goes on: it
    matches the sibling T below S and makes S writable. *)
Lemma MakeMaster_promotes_under_healthy_master :
  Sim.handler Sim.noFault (ReadTopologyInstance Sim.kU) Sim.chain
  = (Sim.get Sim.kU (Sim.nodes Sim.chain), None, Sim.chain)
  /\ @IsSlave Sim.methods (Sim.get Sim.kU (Sim.nodes Sim.chain)) = true
  /\ IsLastCheckValid (Sim.get Sim.kU (Sim.nodes Sim.chain)) = true
  /\ snd (result (run (Sim.handler Sim.noFault)
                    (@MakeMaster Sim.methods [] Sim.kS) Sim.chain)) = None
  /\ driverCalls (trace (run (Sim.handler Sim.noFault)
                           (@MakeMaster Sim.methods [] Sim.kS) Sim.chain))
     = [StopSlave Sim.kT;
        ChangeMasterTo Sim.kT Sim.kS (mkCoord "s-bin.009" 55);
        StartSlave Sim.kT; SetReadOnly Sim.kS false].
Proof.
  repeat split; vm_compute; reflexivity.
Qed.

(** ** Leases are given back *)

(** Token comparisons are kept folded. *)
#[local] Arguments Z.eqb : simpl never.

Lemma leasesReleased_app (t1 t2 : list Event) :
  leasesReleased t1 = true -> leasesReleased t2 = true ->
  leasesReleased (t1 ++ t2) = true.
Proof.
  intros H1 H2. induction t1 as [| e t1 IH]; [exact H2 |].
  cbn in *. apply andb_true_iff in H1 as [He H1].
  rewrite (IH H1), andb_true_r.
  apply forallb_forall. intros t Ht.
  rewrite forallb_forall in He. rewrite existsb_app, (He t Ht). reflexivity.
Qed.

Lemma releasesAll_app_l (t1 t2 : list Event) (held : list MaintenanceToken) :
  releasesAll t1 held -> releasesAll (t1 ++ t2) held.
Proof.
  unfold releasesAll. apply Forall_impl. intros t H.
  rewrite existsb_app, H. reflexivity.
Qed.

Lemma releasesAll_app_r (t1 t2 : list Event) (held : list MaintenanceToken) :
  releasesAll t2 held -> releasesAll (t1 ++ t2) held.
Proof.
  unfold releasesAll. apply Forall_impl. intros t H.
  rewrite existsb_app, H. apply orb_true_r.
Qed.

Lemma releasesAll_cons (e : Event) (tr : list Event)
    (held : list MaintenanceToken) :
  releasesAll tr held -> releasesAll (e :: tr) held.
Proof. apply (releasesAll_app_r [e]). Qed.

(** One event of a thread that holds [held]. *)
Lemma release_step (e : Event) (tr : list Event) (held : list MaintenanceToken) :
  leasesReleased tr = true ->
  releasesAll tr (heldAfter e held) ->
  leasesReleased (e :: tr) = true /\ releasesAll (e :: tr) held.
Proof.
  intros Htr Hp. unfold releasesAll in *. rewrite Forall_forall in Hp.
  split.
  - cbn. rewrite Htr, andb_true_r. apply forallb_forall. intros t Ht.
    apply Hp. unfold heldAfter.
    destruct e as [c r]; destruct c; cbn in *;
      try contradiction; apply in_or_app; auto.
  - apply Forall_forall. intros t Ht. cbn [existsb].
    destruct (releases t e) eqn:Hr; [reflexivity |]. cbn.
    apply Hp. unfold heldAfter, releases in *.
    destruct (ev_call e); try (apply in_or_app; now right).
    apply filter_In. split; [exact Ht |]. now rewrite Hr.
Qed.

Lemma Releases_run W A (h : Handler W) (p : Prog A) :
  forall (held : list MaintenanceToken) (w : W),
    Releases held p ->
    leasesReleased (trace (run h p w)) = true
    /\ releasesAll (trace (run h p w)) held.
Proof.
  induction p as [a | c k IH]; intros held w Hp; cbn in *.
  - subst held. split; [reflexivity | constructor].
  - destruct (h c w) as [r w1]. specialize (IH r _ w1 (Hp r)).
    destruct (run h (k r) w1) as [[a w2] tr]. cbn [trace snd] in *.
    destruct IH as [H1 H2]. now apply release_step.
Qed.

Lemma Releases_bind A B (p : Prog A) (f : A -> Prog B) :
  forall held,
    Releases held p -> (forall a, Releases [] (f a)) ->
    Releases held (bind p f).
Proof.
  induction p as [a | c k IH]; intros held Hp Hf; cbn in *.
  - subst held. apply Hf.
  - intros r. apply IH; auto.
Qed.

Lemma Releases_sequence_ W (h : Handler W) (ps : list (Prog unit)) :
  forall (helds : list (list MaintenanceToken)) (w : W),
    ReleaseAll helds ps ->
    leasesReleased (trace (run h (sequence_ ps) w)) = true
    /\ Forall (releasesAll (trace (run h (sequence_ ps) w))) helds.
Proof.
  induction ps as [| p ps IH]; intros helds w Hall;
    inversion Hall as [| held q helds' ps' Hp Hps]; subst.
  - split; [reflexivity | constructor].
  - cbn [sequence_]. rewrite run_bind.
    destruct (@Releases_run W unit h p held w Hp) as [H1 H2].
    destruct (run h p w) as [[u w1] t1].
    destruct (IH helds' w1 Hps) as [H3 H4].
    destruct (run h (sequence_ ps) w1) as [[u' w2] t2]. cbn in *.
    split.
    + now apply leasesReleased_app.
    + constructor; [now apply releasesAll_app_l |].
      eapply Forall_impl; [| exact H4]. intros l. apply releasesAll_app_r.
Qed.

Lemma ReleaseAll_nth (helds : list (list MaintenanceToken))
    (ps : list (Prog unit)) (n : nat) (p : Prog unit) :
  ReleaseAll helds ps -> nth_error ps n = Some p ->
  exists held, nth_error helds n = Some held /\ Releases held p.
Proof.
  intros Hall. revert n. induction Hall as [| held q helds ps Hq _ IH];
    intros [| n] Hn; cbn in *; try discriminate.
  - injection Hn as <-. eauto.
  - now apply IH.
Qed.

Lemma ReleaseAll_replace (helds : list (list MaintenanceToken))
    (ps : list (Prog unit)) (n : nat) (held : list MaintenanceToken)
    (p : Prog unit) :
  ReleaseAll helds ps -> Releases held p ->
  ReleaseAll (replace_nth n held helds) (replace_nth n p ps).
Proof.
  intros Hall Hp. revert n. induction Hall as [| x q helds ps Hq Hall IH];
    intros [| n]; cbn; constructor; auto; apply IH.
Qed.

Lemma releasesAll_replace (e : Event) (tr : list Event)
    (helds : list (list MaintenanceToken)) (n : nat)
    (held : list MaintenanceToken) :
  nth_error helds n = Some held ->
  leasesReleased tr = true ->
  Forall (releasesAll tr) (replace_nth n (heldAfter e held) helds) ->
  leasesReleased (e :: tr) = true /\ Forall (releasesAll (e :: tr)) helds.
Proof.
  intros Hn Htr. revert n Hn.
  induction helds as [| x helds IH]; intros [| n] Hn Hall;
    cbn [nth_error replace_nth] in *; try discriminate.
  - injection Hn as ->. inversion Hall as [| y ys Hy Hys]; subst.
    destruct (@release_step e tr held Htr Hy) as [H1 H2].
    split; [exact H1 |]. constructor; [exact H2 |].
    eapply Forall_impl; [| exact Hys]. intros l. apply releasesAll_cons.
  - inversion Hall as [| y ys Hy Hys]; subst.
    destruct (IH n Hn Hys) as [H1 H2].
    split; [exact H1 |]. constructor; [now apply releasesAll_cons | exact H2].
Qed.

Lemma Releases_interleave W (h : Handler W) (sched : Schedule) :
  forall (ps : list (Prog unit)) (helds : list (list MaintenanceToken)) (w : W),
    ReleaseAll helds ps ->
    leasesReleased (trace (run h (interleave sched ps) w)) = true
    /\ Forall (releasesAll (trace (run h (interleave sched ps) w))) helds.
Proof.
  induction sched as [| n sched IH]; intros ps helds w Hall; cbn [interleave].
  - now apply Releases_sequence_.
  - destruct (nth_error ps n) as [[u | c k] |] eqn:Hn; auto.
    destruct (@ReleaseAll_nth helds ps n (Vis c k) Hall Hn)
      as (held & Hpn & Hp).
    cbn [run]. destruct (h c w) as [r w1].
    specialize (IH (replace_nth n (k r) ps)
                  (replace_nth n (heldAfter (Ev c r) held) helds) w1
                  (@ReleaseAll_replace helds ps n _ (k r) Hall (Hp r))).
    destruct (run h (interleave sched (replace_nth n (k r) ps)) w1)
      as [[u w2] tr].
    cbn [trace snd] in *. destruct IH as [H1 H2].
    now apply releasesAll_replace with (n := n) (held := held).
Qed.

Lemma MatchBelow_Releases (IM : InstanceMethods)
    (instanceKey otherKey : InstanceKey)
    (requireInstanceMaintenance requireOtherMaintenance : bool) :
  Releases []
    (MatchBelow instanceKey otherKey requireInstanceMaintenance
       requireOtherMaintenance).
Proof.
  unfold MatchBelow, MatchBelow_lockOther, MatchBelow_locked, MatchBelow_Cleanup.
  cbn.
  repeat first
    [ reflexivity
    | intros ?
    | progress destruct_resp
    | progress (cbn; rewrite ?Z.eqb_refl; cbn)
    | match goal with
      | |- Releases _ (match ?x with _ => _ end) => destruct x
      | |- context [Z.eqb ?a ?b] => destruct (Z.eqb a b)
      end ].
Qed.

Lemma enslaveSiblings_release (IM : InstanceMethods) W (h : Handler W)
    (sched : Schedule) (instanceKey : InstanceKey) (siblings : list Instance)
    (w : W) :
  leasesReleased
    (trace (run h
              (interleave sched
                 (map (fun sibling => enslaveSibling instanceKey (Key sibling))
                    siblings)) w)) = true.
Proof.
  apply (@Releases_interleave W h sched _ (map (fun _ => []) siblings) w).
  unfold ReleaseAll. induction siblings as [| sibling siblings IH]; cbn;
    constructor; [| exact IH].
  unfold enslaveSibling. apply Releases_bind; [apply MatchBelow_Releases |].
  intros a. reflexivity.
Qed.

Lemma single_leases_released (IM : InstanceMethods) W (h : Handler W) (w : W)
    (op : Operator) :
  fansOut op = false ->
  leasesReleased (trace (run h (operate op) w)) = true.
Proof.
  intros Hop. destruct op; try discriminate Hop; clear Hop;
    cbn [operate];
    unfold MoveUp, MoveUp_Cleanup, GetInstanceMaster,
      MoveBelow, MoveBelow_ChangeMaster, MoveBelow_Cleanup,
      MakeCoMaster, MakeCoMaster_Cleanup,
      ResetSlaveOperation, ResetSlaveOperation_Reset,
      ResetSlaveOperation_Cleanup,
      MatchBelow, MatchBelow_lockOther, MatchBelow_locked, MatchBelow_Cleanup;
    cbn; explore h; released.
Qed.

Lemma MakeMaster_leases_released (IM : InstanceMethods) W (h : Handler W)
    (w : W) (sched : Schedule) (target : InstanceKey) :
  leasesReleased (trace (run h (MakeMaster sched target) w)) = true.
Proof.
  unfold MakeMaster, MakeMaster_promote, MakeMaster_Cleanup, enslaveSiblings.
  cbn.
  explore h; try solve [released];
    fanout h run_bind; explore h; released_after_fanout h target leasesReleased_app
      (@enslaveSiblings_release IM W h).
Qed.

Lemma MakeLocalMaster_leases_released (IM : InstanceMethods) W (h : Handler W)
    (w : W) (sched : Schedule) (target : InstanceKey) :
  leasesReleased (trace (run h (MakeLocalMaster sched target) w)) = true.
Proof.
  unfold MakeLocalMaster, MakeLocalMaster_Cleanup, enslaveSiblings,
    MatchBelow, MatchBelow_lockOther, MatchBelow_locked, MatchBelow_Cleanup.
  cbn.
  explore h; try solve [released];
    fanout h run_bind; explore h; released_after_fanout h target leasesReleased_app
      (@enslaveSiblings_release IM W h).
Qed.

(** X1.  No operator returns holding a lease: in every run of every
    operator, each lease that was granted -- the leases of the [MatchBelow]
    goroutines of [enslaveSiblings] included, however they are scheduled --
    is released by a later [EndMaintenance] of its token. *)
Theorem every_lease_released :
  forall (IM : InstanceMethods) W (h : Handler W) (w : W) (op : Operator),
    leasesReleased (trace (run h (operate op) w)) = true.
Proof.
  intros IM W h w op.
  destruct (fansOut op) eqn:Hop; [| now apply single_leases_released].
  destruct op; try discriminate Hop; cbn [operate].
  - apply MakeMaster_leases_released.
  - apply MakeLocalMaster_leases_released.
Qed.

(** X2.  In an operator that runs no other operator, the releases are the
    last calls of the run -- after the Start attempts of the cleanup and
    after the audit record -- and hand the tokens back in the reverse of
    the order in which they were granted. *)
Theorem releases_come_last :
  forall (IM : InstanceMethods) W (h : Handler W) (w : W) (op : Operator),
    fansOut op = false ->
    releasedLeases (trace (run h (operate op) w))
    = rev (grantedLeases (trace (run h (operate op) w)))
    /\ lastn (List.length (grantedLeases (trace (run h (operate op) w))))
         (calls (trace (run h (operate op) w)))
       = map EndMaintenance
           (rev (grantedLeases (trace (run h (operate op) w)))).
Proof.
  intros IM W h w op Hop. destruct op; try discriminate Hop; clear Hop;
    cbn [operate]; unfold_operators; cbn; explore h; split; reflexivity.
Qed.

Lemma releases_come_last_witness :
  fansOut (OpMoveBelow Sim.kT Sim.kS) = false
  /\ releasedLeases
       (trace (run (Sim.handler Sim.noFault)
                 (@operate Sim.methods (OpMoveBelow Sim.kT Sim.kS)) Sim.chain))
     = [2; 1]%Z.
Proof.
  split; [reflexivity |].
  rewrite (proj1 (@releases_come_last Sim.methods _ (Sim.handler Sim.noFault)
                    Sim.chain (OpMoveBelow Sim.kT Sim.kS) eq_refl)).
  reflexivity.
Defined.

(** ** The lease comes first *)

(** X3.  An operator that takes the lease on its target asks the driver for
    nothing before it has asked for that lease: every driver call of the
    run comes after the request of the lease on the target. *)
Theorem lease_before_driver :
  forall (IM : InstanceMethods) W (h : Handler W) (w : W) (op : Operator),
    leasesTarget op = true ->
    leaseFirst (targetOf op) (calls (trace (run h (operate op) w))) = true.
Proof.
  intros IM W h w op Hop.
  destruct op; cbn [operate targetOf leasesTarget] in *; subst;
    unfold_operators; cbn;
    explore h; cbn; rewrite ?KeyEquals_refl; try reflexivity;
    fanout h run_bind; explore h; cbn; rewrite ?KeyEquals_refl; reflexivity.
Qed.

Lemma lease_before_driver_witness :
  leasesTarget (OpMakeMaster [] Sim.kS) = true
  /\ leaseFirst Sim.kS
       (calls (trace (run (Sim.handler Sim.noFault)
                        (@operate Sim.methods (OpMakeMaster [] Sim.kS))
                        Sim.chain))) = true.
Proof.
  split; [reflexivity |].
  exact (@lease_before_driver Sim.methods _ (Sim.handler Sim.noFault) Sim.chain
           (OpMakeMaster [] Sim.kS) eq_refl).
Defined.

(** ** The first read *)

(** X4.  Every operator first reads its target; when that read fails the
    operator returns the instance and the error of the read as they are,
    and makes no other call. *)
Theorem probe_failure_returns :
  forall (IM : InstanceMethods) W (h : Handler W) (w w' : W) (op : Operator)
         (instance : Instance) (e : error),
    h (ReadTopologyInstance (targetOf op)) w = (instance, Some e, w') ->
    run h (operate op) w
    = ((instance, Some e), w',
       [Ev (ReadTopologyInstance (targetOf op)) (instance, Some e)]).
Proof.
  intros IM W h w w' op instance e H.
  destruct op; cbn [operate targetOf] in *; unfold_operators; cbn;
    rewrite H; reflexivity.
Qed.

Lemma probe_failure_returns_witness :
  Sim.handler Sim.noFault (ReadTopologyInstance (targetOf (OpMoveUp kA)))
    Sim.chain
  = (Sim.NewInstance kA, Some "cannot reach instance", Sim.chain)
  /\ calls (trace (run (Sim.handler Sim.noFault)
                     (@operate Sim.methods (OpMoveUp kA)) Sim.chain))
     = [ReadTopologyInstance kA].
Proof.
  split; [reflexivity |].
  rewrite (@probe_failure_returns Sim.methods _ (Sim.handler Sim.noFault)
             Sim.chain Sim.chain (OpMoveUp kA) _ _ eq_refl).
  reflexivity.
Defined.

(** ** Failures and audit *)

(** X5.  In an operator that runs no other operator, the first driver call
    (other than a start) that fails ends the work: the driver is afterwards
    only asked for the Start attempts of the cleanup, the operator returns
    the error of that call, and no audit record is written. *)
Theorem first_failure_returned :
  forall (IM : InstanceMethods) W (h : Handler W) (w : W) (op : Operator),
    fansOut op = false ->
    haltsOnFailure (driverLog (trace (run h (operate op) w))) = true
    /\ forall c answered e,
         In (c, (answered, Some e)) (driverLog (trace (run h (operate op) w))) ->
         isStart c = false ->
         snd (result (run h (operate op) w)) = Some e
         /\ audited (trace (run h (operate op) w)) = false.
Proof.
  intros IM W h w op Hop. destruct op; try discriminate Hop; clear Hop;
    cbn [operate]; unfold_operators; cbn; explore h;
    (split; [reflexivity |]);
    intros c answered e0 Hin Hc; cbn in Hin;
    repeat destruct Hin as [Hin | Hin]; try contradiction;
    inversion Hin; subst; try discriminate Hc; split; reflexivity.
Qed.

Lemma first_failure_returned_witness :
  fansOut (OpMoveUp Sim.kT) = false
  /\ In (ChangeMasterTo Sim.kT Sim.kM (mkCoord "m-bin.001" 650),
         (Sim.get Sim.kT
            (Sim.update Sim.kT
               (fun i => mkInstance (Key i) (MasterKey i)
                           (SelfBinlogCoordinates i)
                           (mkCoord "u-bin.004" 400) (IsLastCheckValid i))
               (Sim.nodes Sim.chain)),
          Some "driver failure"))
       (driverLog (trace (run (Sim.handler isChangeMaster)
                            (@operate Sim.methods (OpMoveUp Sim.kT)) Sim.chain)))
  /\ snd (result (run (Sim.handler isChangeMaster)
                    (@operate Sim.methods (OpMoveUp Sim.kT)) Sim.chain))
     = Some "driver failure".
Proof.
  split; [reflexivity |].
  assert (H : In (ChangeMasterTo Sim.kT Sim.kM (mkCoord "m-bin.001" 650),
         (Sim.get Sim.kT
            (Sim.update Sim.kT
               (fun i => mkInstance (Key i) (MasterKey i)
                           (SelfBinlogCoordinates i)
                           (mkCoord "u-bin.004" 400) (IsLastCheckValid i))
               (Sim.nodes Sim.chain)),
          Some "driver failure"))
       (driverLog (trace (run (Sim.handler isChangeMaster)
                            (@operate Sim.methods (OpMoveUp Sim.kT))
                            Sim.chain)))).
  { vm_compute. auto 10. }
  split; [exact H |].
  exact (proj1 (proj2 (@first_failure_returned Sim.methods _
                         (Sim.handler isChangeMaster) Sim.chain
                         (OpMoveUp Sim.kT) eq_refl) _ _ _ H eq_refl)).
Defined.

(** X6.  An operator writes the audit record of its own type only when it
    succeeds: if the record is in the trace, the operator returns no
    error. *)
Theorem audit_means_success :
  forall (IM : InstanceMethods) W (h : Handler W) (w : W) (op : Operator),
    In (auditName op, targetOf op)
       (auditRecords (trace (run h (operate op) w))) ->
    snd (result (run h (operate op) w)) = None.
Proof.
  intros IM W h w op.
  destruct op; cbn [operate targetOf auditName]; unfold_operators; cbn;
    explore h; try solve [reflexivity];
    try solve [cbn; intros Hin; repeat destruct Hin as [Hin | Hin];
               try contradiction; discriminate Hin];
    fanout h run_bind; explore h; reflexivity.
Qed.

Lemma audit_means_success_witness :
  In (auditName (OpMatchBelow Sim.kT Sim.kS true true),
      targetOf (OpMatchBelow Sim.kT Sim.kS true true))
     (auditRecords
        (trace (run (Sim.handler Sim.noFault)
                  (@operate Sim.methods (OpMatchBelow Sim.kT Sim.kS true true))
                  Sim.chain)))
  /\ snd (result (run (Sim.handler Sim.noFault)
                    (@operate Sim.methods
                       (OpMatchBelow Sim.kT Sim.kS true true)) Sim.chain))
     = None.
Proof.
  assert (H : In (auditName (OpMatchBelow Sim.kT Sim.kS true true),
      targetOf (OpMatchBelow Sim.kT Sim.kS true true))
     (auditRecords
        (trace (run (Sim.handler Sim.noFault)
                  (@operate Sim.methods (OpMatchBelow Sim.kT Sim.kS true true))
                  Sim.chain)))) by (vm_compute; auto).
  split; [exact H |].
  exact (@audit_means_success Sim.methods _ (Sim.handler Sim.noFault) Sim.chain
           (OpMatchBelow Sim.kT Sim.kS true true) H).
Defined.

(** X7.  Conversely, under the contract of the eligibility predicates, an
    operator that runs no other operator and returns no error has written
    its audit record, exactly once. *)
Theorem success_means_audit :
  forall (IM : InstanceMethods) W (h : Handler W) (w : W) (op : Operator),
    eligibilityReasons IM ->
    fansOut op = false ->
    snd (result (run h (operate op) w)) = None ->
    auditRecords (trace (run h (operate op) w)) = [(auditName op, targetOf op)].
Proof.
  intros IM W h w op HC Hop. destruct op; try discriminate Hop; clear Hop;
    cbn [operate targetOf auditName]; unfold_operators; cbn;
    explore h; cbn; intros Hres; try discriminate Hres; try reflexivity;
    exfalso; subst; refusal_reason HC.
Qed.

Lemma Sim_eligibilityReasons : eligibilityReasons Sim.methods.
Proof.
  unfold eligibilityReasons, reasoned, reasoned2. cbn.
  repeat split; intros i;
    try (destruct (IsLastCheckValid i); cbn; intros H; discriminate);
    try (intros j H; discriminate H).
Qed.

Lemma success_means_audit_witness :
  eligibilityReasons Sim.methods
  /\ fansOut (OpMakeCoMaster Sim.kU) = false
  /\ snd (result (run (Sim.handler Sim.noFault)
                    (@operate Sim.methods (OpMakeCoMaster Sim.kU)) Sim.chain))
     = None
  /\ auditRecords (trace (run (Sim.handler Sim.noFault)
                            (@operate Sim.methods (OpMakeCoMaster Sim.kU))
                            Sim.chain))
     = [("make-co-master", Sim.kU)].
Proof.
  split; [exact Sim_eligibilityReasons |].
  split; [reflexivity |]. split; [reflexivity |].
  exact (@success_means_audit Sim.methods _ (Sim.handler Sim.noFault) Sim.chain
           (OpMakeCoMaster Sim.kU) Sim_eligibilityReasons eq_refl eq_refl).
Defined.

(** ** The sequences of MakeCoMaster, MatchBelow and ResetSlaveOperation *)

(** X8.  On the path of [MakeCoMaster] that ends with its audit record the
    trace is exactly: the read of the target and of its upstream, three
    inventory lookups (the last one not finding the upstream's master), the
    lease on the target, the lease on the upstream, ChangeMasterTo of the
    upstream to the target at the self coordinates of the target as first
    read, Start of the upstream, the audit record and the release of both
    leases.  The target is neither stopped nor started, and the instance
    returned is the one first read. *)
Theorem MakeCoMaster_success_sequence :
  forall (IM : InstanceMethods) W (h : Handler W) (w : W) (target : InstanceKey),
    audited (trace (run h (MakeCoMaster target) w)) = true ->
    exists instance upstream r1 r2 unknown e3 t1 t2 upstream1 upstream2 e,
      trace (run h (MakeCoMaster target) w) =
        [ Ev (ReadTopologyInstance target) (instance, None);
          Ev (ReadTopologyInstance (MasterKey instance)) (upstream, None);
          Ev (ReadInstance (Key upstream)) r1;
          Ev (ReadInstance target) r2;
          Ev (ReadInstance (MasterKey upstream)) (unknown, false, e3);
          Ev (BeginMaintenance target "orchestrator"
                ("make co-master of " ++ fmtKey (Key upstream))) (t1, None);
          Ev (BeginMaintenance (Key upstream) "orchestrator"
                (fmtKey target ++ " turns into co-master of this")) (t2, None);
          Ev (ChangeMasterTo (Key upstream) target
                (SelfBinlogCoordinates instance)) (upstream1, None);
          Ev (StartSlave (Key upstream1)) (upstream2, e);
          Ev (AuditOperation "make-co-master" target
                (fmtKey target ++ " made co-master of "
                   ++ fmtKey (Key upstream2))) tt;
          Ev (EndMaintenance t2) tt;
          Ev (EndMaintenance t1) tt ]
      /\ KeyEquals target (MasterKey upstream) = false
      /\ result (run h (MakeCoMaster target) w) = (instance, None).
Proof.
  intros IM W h w target.
  unfold MakeCoMaster, MakeCoMaster_Cleanup, GetInstanceMaster. cbn.
  explore h; try discriminate. intros _.
  do 11 eexists. repeat split; try reflexivity; assumption.
Qed.

Lemma MakeCoMaster_success_sequence_witness :
  audited (trace (run (Sim.handler Sim.noFault)
                    (@MakeCoMaster Sim.methods Sim.kU) Sim.chain)) = true
  /\ snd (result (run (Sim.handler Sim.noFault)
                    (@MakeCoMaster Sim.methods Sim.kU) Sim.chain)) = None.
Proof.
  split; [reflexivity |].
  destruct (@MakeCoMaster_success_sequence Sim.methods _
              (Sim.handler Sim.noFault) Sim.chain Sim.kU eq_refl)
    as (? & ? & ? & ? & ? & ? & ? & ? & ? & ? & ? & _ & _ & H).
  rewrite H. reflexivity.
Defined.

(** X9.  On the path of [MatchBelow] that ends with its audit record the
    trace is exactly: the read of the target, the read of the other node,
    one inventory lookup, the leases its two flags ask for, Stop of the
    target, the last pseudo-GTID entry of the target as answered by the
    stop, the search of that entry's text in the other node as first read,
    the coordinates to match computed from the two entries, ChangeMasterTo
    of the target to the other node at exactly those coordinates, Start of
    the target, the audit record and the releases. *)
Theorem MatchBelow_success_sequence :
  forall (IM : InstanceMethods) W (h : Handler W) (w : W)
         (target other : InstanceKey) (lockTarget lockOther : bool),
    audited (trace (run h (MatchBelow target other lockTarget lockOther) w))
    = true ->
    exists instance0 otherInstance r t1 t2 instance1 entry text otherEntry next
           instance2 instance3 e,
      trace (run h (MatchBelow target other lockTarget lockOther) w) =
        ([ Ev (ReadTopologyInstance target) (instance0, None);
           Ev (ReadTopologyInstance other) (otherInstance, None);
           Ev (ReadInstance (Key instance0)) r ]
         ++ (if lockTarget
             then [Ev (BeginMaintenance target "orchestrator"
                         ("match below " ++ fmtKey other)) (t1, None)]
             else [])
         ++ (if lockOther
             then [Ev (BeginMaintenance other "orchestrator"
                         (fmtKey target ++ " matches below this")) (t2, None)]
             else [])
         ++ [ Ev (StopSlave target) (instance1, None);
              Ev (GetLastPseudoGTIDEntryInInstance instance1)
                (entry, text, None);
              Ev (SearchPseudoGTIDEntryInInstance otherInstance text)
                (otherEntry, None);
              Ev (GetNextBinlogCoordinatesToMatch instance1 entry
                    otherInstance otherEntry) (next, None);
              Ev (ChangeMasterTo target other next) (instance2, None);
              Ev (StartSlave target) (instance3, e);
              Ev (AuditOperation "match-below" target
                    ("matched " ++ fmtKey target ++ " below " ++ fmtKey other))
                tt ]
         ++ (if lockOther then [Ev (EndMaintenance t2) tt] else [])
         ++ (if lockTarget then [Ev (EndMaintenance t1) tt] else []))%list
      /\ KeyEquals target other = false
      /\ result (run h (MatchBelow target other lockTarget lockOther) w)
         = (instance3, None).
Proof.
  intros IM W h w target other lockTarget lockOther.
  unfold MatchBelow, MatchBelow_lockOther, MatchBelow_locked, MatchBelow_Cleanup.
  cbn.
  explore h; try discriminate; intros _;
    repeat match goal with
           | |- exists _, _ => first [eexists | exists 0%Z]
           end;
    repeat split; first [reflexivity | assumption | exact 0%Z].
Qed.

Lemma MatchBelow_success_sequence_witness :
  audited (trace (run (Sim.handler Sim.noFault)
                    (@MatchBelow Sim.methods Sim.kT Sim.kS true false)
                    Sim.chain)) = true
  /\ snd (result (run (Sim.handler Sim.noFault)
                    (@MatchBelow Sim.methods Sim.kT Sim.kS true false)
                    Sim.chain)) = None.
Proof.
  split; [reflexivity |].
  destruct (@MatchBelow_success_sequence Sim.methods _
              (Sim.handler Sim.noFault) Sim.chain Sim.kT Sim.kS true false
              eq_refl)
    as (? & ? & ? & ? & ? & ? & ? & ? & ? & ? & ? & ? & ? & _ & _ & H).
  rewrite H. reflexivity.
Defined.

(** X10.  [MatchBelow] of a node below itself makes no call but the read of
    the node, and fails: with the error of the read, or with its own
    message. *)
Theorem MatchBelow_below_itself :
  forall (IM : InstanceMethods) W (h : Handler W) (w : W)
         (target other : InstanceKey) (lockTarget lockOther : bool),
    KeyEquals target other = true ->
    calls (trace (run h (MatchBelow target other lockTarget lockOther) w))
    = [ReadTopologyInstance target]
    /\ exists e,
         snd (result (run h (MatchBelow target other lockTarget lockOther) w))
         = Some e
         /\ (e = "MatchBelow: attempt to match an instance below itself "
                 ++ fmtKey target
             \/ In (target, (fst (result
                                    (run h (MatchBelow target other lockTarget
                                              lockOther) w)), Some e))
                   (probeLog
                      (trace (run h (MatchBelow target other lockTarget
                                       lockOther) w)))).
Proof.
  intros IM W h w target other lockTarget lockOther Hsame.
  unfold MatchBelow. cbn. step h. rewrite Hsame.
  destruct o; cbn; (split; [reflexivity |]); eexists; (split; [reflexivity |]);
    cbn; auto.
Qed.

Lemma MatchBelow_below_itself_witness :
  KeyEquals Sim.kT Sim.kT = true
  /\ calls (trace (run (Sim.handler Sim.noFault)
                     (@MatchBelow Sim.methods Sim.kT Sim.kT true true)
                     Sim.chain))
     = [ReadTopologyInstance Sim.kT].
Proof.
  split; [reflexivity |].
  exact (proj1 (@MatchBelow_below_itself Sim.methods _ (Sim.handler Sim.noFault)
                  Sim.chain Sim.kT Sim.kT true true eq_refl)).
Defined.

(** X11.  [MatchBelow] asks for leases as its flags say and in this order:
    the target's if [lockTarget], then the other node's if [lockOther];
    with both flags off it asks for none. *)
Theorem MatchBelow_leases_by_flags :
  forall (IM : InstanceMethods) W (h : Handler W) (w : W)
         (target other : InstanceKey) (lockTarget lockOther : bool),
    exists n,
      beginKeys (trace (run h (MatchBelow target other lockTarget lockOther) w))
      = firstn n ((if lockTarget then [target] else [])
                    ++ (if lockOther then [other] else []))%list.
Proof.
  intros IM W h w target other lockTarget lockOther.
  unfold MatchBelow, MatchBelow_lockOther, MatchBelow_locked, MatchBelow_Cleanup.
  cbn.
  explore h; cbn;
    first [ exists 0%nat; reflexivity
          | exists 1%nat; reflexivity
          | exists 2%nat; reflexivity ].
Qed.

(** X12.  [ResetSlave] is only asked for under the lease on the target,
    and, when the instance read is a replica, only after a Stop of the
    target that did not fail; the driver calls of such a run are the Stop
    (for a replica), the Reset, and the Start of the cleanup. *)
Theorem ResetSlaveOperation_sequence :
  forall (IM : InstanceMethods) W (h : Handler W) (w : W)
         (target k : InstanceKey),
    In (ResetSlave k) (calls (trace (run h (ResetSlaveOperation target) w))) ->
    exists instance t,
      probeLog (trace (run h (ResetSlaveOperation target) w))
      = [(target, (instance, None))]
      /\ k = target
      /\ grantedLeases (trace (run h (ResetSlaveOperation target) w)) = [t]
      /\ map fst (driverLog (trace (run h (ResetSlaveOperation target) w)))
         = ((if IsSlave instance then [StopSlave target] else [])
              ++ [ResetSlave target; StartSlave target])%list
      /\ forall c answered e,
           In (c, (answered, Some e))
              (driverLog (trace (run h (ResetSlaveOperation target) w))) ->
           c = ResetSlave target \/ c = StartSlave target.
Proof.
  intros IM W h w target k.
  unfold ResetSlaveOperation, ResetSlaveOperation_Reset,
    ResetSlaveOperation_Cleanup.
  cbn.
  explore h; cbn; intros Hin; repeat destruct Hin as [Hin | Hin];
    try contradiction; try discriminate Hin;
    injection Hin as <-; do 2 eexists;
    (repeat split; try reflexivity;
     try match goal with H : IsSlave _ = _ |- _ => rewrite H end;
     try reflexivity);
    intros c answered e0 Hc; cbn in Hc;
    repeat destruct Hc as [Hc | Hc]; try contradiction;
    inversion Hc; subst; auto.
Qed.

Lemma ResetSlaveOperation_sequence_witness :
  In (ResetSlave Sim.kT)
     (calls (trace (run (Sim.handler Sim.noFault)
                      (@ResetSlaveOperation Sim.methods Sim.kT) Sim.chain)))
  /\ map fst (driverLog (trace (run (Sim.handler Sim.noFault)
                                  (@ResetSlaveOperation Sim.methods Sim.kT)
                                  Sim.chain)))
     = [StopSlave Sim.kT; ResetSlave Sim.kT; StartSlave Sim.kT].
Proof.
  assert (H : In (ResetSlave Sim.kT)
                (calls (trace (run (Sim.handler Sim.noFault)
                                 (@ResetSlaveOperation Sim.methods Sim.kT)
                                 Sim.chain)))) by (vm_compute; auto 10).
  split; [exact H |].
  destruct (@ResetSlaveOperation_sequence Sim.methods _
              (Sim.handler Sim.noFault) Sim.chain Sim.kT Sim.kT H)
    as (instance & t & Hp & _ & _ & Hd & _).
  rewrite Hd. injection Hp as <-. reflexivity.
Defined.

(** ** enslaveSiblings and the promotions *)

Lemma enslaveSibling_sparesMaster (IM : InstanceMethods)
    (instanceKey siblingKey : InstanceKey) :
  KeyEquals siblingKey instanceKey = false ->
  CallsAll (sparesMaster instanceKey) (enslaveSibling instanceKey siblingKey).
Proof.
  intros Hne.
  unfold enslaveSibling, MatchBelow, MatchBelow_lockOther, MatchBelow_locked,
    MatchBelow_Cleanup.
  cbn. split; [exact I |]. intros r. destruct_resp. cbn. rewrite Hne.
  repeat first
    [ exact I
    | exact Hne
    | split
    | reflexivity
    | intros ?
    | progress destruct_resp
    | progress cbn
    | match goal with
      | |- CallsAll _ (match ?x with _ => _ end) => destruct x
      | |- CallsAll _ (bind (match ?x with _ => _ end) _) => destruct x
      end ].
Qed.

(** X13.  [enslaveSiblings] leaves the new master alone, however its
    goroutines are scheduled: no Stop, Start, StartUntil, Reset, SetReadOnly
    or lease of its run is on the new master's key, every ChangeMasterTo
    re-points some other node onto the new master, and the result is always
    a nil error. *)
Theorem enslaveSiblings_spares_master :
  forall (IM : InstanceMethods) W (h : Handler W) (w : W) (sched : Schedule)
         (newMaster : InstanceKey) (siblings : list Instance),
    Forall (fun e => sparesMaster newMaster (ev_call e))
      (trace (run h (enslaveSiblings sched newMaster siblings) w))
    /\ result (run h (enslaveSiblings sched newMaster siblings) w) = None.
Proof.
  intros IM W h w sched newMaster siblings. split.
  - apply CallsAll_run. unfold enslaveSiblings.
    apply CallsAll_bind; [| intros u; exact I].
    apply CallsAll_interleave, Forall_map, Forall_forall.
    intros sibling Hin. apply filter_In in Hin as [_ Hf].
    apply andb_true_iff in Hf as [_ Hf].
    apply enslaveSibling_sparesMaster.
    now destruct (KeyEquals (Key sibling) newMaster).
  - unfold enslaveSiblings. rewrite run_bind.
    destruct (run h (interleave sched _) w) as [[u w1] t1]. reflexivity.
Qed.

Lemma interleave_nil (sched : Schedule) : interleave sched [] = Ret tt.
Proof.
  induction sched as [| n sched IH]; [reflexivity |].
  cbn. destruct n; exact IH.
Qed.

(** X14.  [enslaveSiblings] makes no call at all when no sibling is both up
    to date with its SQL thread and different from the new master: the new
    master itself and lagging siblings in the list are ignored. *)
Theorem enslaveSiblings_nothing_to_do :
  forall (IM : InstanceMethods) W (h : Handler W) (w : W) (sched : Schedule)
         (newMaster : InstanceKey) (siblings : list Instance),
    (forall sibling, In sibling siblings ->
                     SQLThreadUpToDate sibling = false
                     \/ KeyEquals (Key sibling) newMaster = true) ->
    run h (enslaveSiblings sched newMaster siblings) w = (None, w, []).
Proof.
  intros IM W h w sched newMaster siblings Hnone.
  unfold enslaveSiblings.
  assert (Hf : filter (fun sibling =>
                         SQLThreadUpToDate sibling
                         && negb (KeyEquals (Key sibling) newMaster))
                 siblings = []).
  { induction siblings as [| s siblings IH]; [reflexivity |].
    cbn. destruct (Hnone s (or_introl eq_refl)) as [-> | ->]; cbn;
      rewrite ?andb_false_r; apply IH; intros x Hx; apply Hnone; now right. }
  rewrite Hf. cbn. rewrite interleave_nil. reflexivity.
Qed.

Lemma enslaveSiblings_nothing_to_do_witness :
  (forall sibling,
      In sibling [Sim.get Sim.kS (Sim.nodes Sim.chain)] ->
      @SQLThreadUpToDate Sim.methods sibling = false
      \/ KeyEquals (Key sibling) Sim.kS = true)
  /\ run (Sim.handler Sim.noFault)
       (@enslaveSiblings Sim.methods [0%nat; 1%nat] Sim.kS
          [Sim.get Sim.kS (Sim.nodes Sim.chain)]) Sim.chain
     = (None, Sim.chain, []).
Proof.
  assert (H : forall sibling,
             In sibling [Sim.get Sim.kS (Sim.nodes Sim.chain)] ->
             @SQLThreadUpToDate Sim.methods sibling = false
             \/ KeyEquals (Key sibling) Sim.kS = true).
  { intros sibling [<- | []]. right. reflexivity. }
  split; [exact H |].
  exact (@enslaveSiblings_nothing_to_do Sim.methods _ (Sim.handler Sim.noFault)
           Sim.chain [0%nat; 1%nat] Sim.kS _ H).
Defined.

Lemma beginKeys_app (t1 t2 : list Event) :
  beginKeys (t1 ++ t2) = (beginKeys t1 ++ beginKeys t2)%list.
Proof. unfold beginKeys, calls. now rewrite map_app, flat_map_app. Qed.

Lemma leavesLease_beginKeys (k : InstanceKey) (tr : list Event) :
  Forall (fun e => leavesLease k (ev_call e)) tr ->
  Forall (fun k' => KeyEquals k' k = false) (beginKeys tr).
Proof.
  induction 1 as [| e tr He _ IH]; [constructor |].
  change (e :: tr) with ([e] ++ tr)%list. rewrite beginKeys_app.
  apply Forall_app. split; [| exact IH].
  destruct e as [c r]. destruct c; cbn in *; constructor; auto.
Qed.

Lemma enslaveSiblings_beginKeys (IM : InstanceMethods) W (h : Handler W)
    (sched : Schedule) (instanceKey : InstanceKey) (siblings : list Instance)
    (w : W) :
  Forall (fun k => KeyEquals k instanceKey = false)
    (beginKeys
       (trace (run h
                 (interleave sched
                    (map (fun sibling => enslaveSibling instanceKey (Key sibling))
                       (filter (fun sibling =>
                                  SQLThreadUpToDate sibling
                                  && negb (KeyEquals (Key sibling) instanceKey))
                          siblings))) w))).
Proof.
  apply leavesLease_beginKeys, CallsAll_run, CallsAll_interleave.
  apply Forall_map, Forall_forall. intros sibling Hin.
  apply filter_In in Hin as [_ Hf]. apply andb_true_iff in Hf as [_ Hf].
  apply enslaveSibling_leavesLease.
  now destruct (KeyEquals (Key sibling) instanceKey).
Qed.

(** X15.  [MakeMaster] and [MakeLocalMaster] ask for the lease on their
    target at most once, and first; the leases asked for afterwards, by the
    [MatchBelow] runs on the siblings, are all on other keys. *)
Theorem promotion_leases_target_once :
  forall (IM : InstanceMethods) W (h : Handler W) (w : W) (op : Operator),
    fansOut op = true ->
    beginKeys (trace (run h (operate op) w)) = []
    \/ exists rest,
         beginKeys (trace (run h (operate op) w)) = targetOf op :: rest
         /\ Forall (fun k => KeyEquals k (targetOf op) = false) rest.
Proof.
  intros IM W h w op Hop.
  destruct op; try discriminate Hop; clear Hop; cbn [operate targetOf].
  - own_lease_once h target run_bind (@enslaveSiblings_beginKeys IM W h).
  - own_lease_once h target run_bind (@enslaveSiblings_beginKeys IM W h).
Qed.

Lemma promotion_leases_target_once_witness :
  fansOut (OpMakeLocalMaster [] Sim.kS) = true
  /\ exists rest,
       beginKeys (trace (run (Sim.handler Sim.noFault)
                           (@operate Sim.methods (OpMakeLocalMaster [] Sim.kS))
                           Sim.chain)) = Sim.kS :: rest.
Proof.
  split; [reflexivity |].
  destruct (@promotion_leases_target_once Sim.methods _
              (Sim.handler Sim.noFault) Sim.chain
              (OpMakeLocalMaster [] Sim.kS) eq_refl)
    as [Hnone | (rest & Hrest & _)].
  - vm_compute in Hnone. discriminate Hnone.
  - exists rest. exact Hrest.
Defined.






(** X18.  When the inventory does not know the master of the target,
    [MakeLocalMaster] stops after the lookup: it asks for no lease, calls
    no driver, writes no audit record, and returns the error of the lookup
    -- a nil error when the lookup itself did not fail. *)
Theorem MakeLocalMaster_unknown_master :
  forall (IM : InstanceMethods) W (h : Handler W) (w w1 w2 : W)
         (sched : Schedule) (target : InstanceKey)
         (instance masterInstance : Instance) (e : option error),
    h (ReadTopologyInstance target) w = (instance, None, w1) ->
    h (ReadInstance (MasterKey instance)) w1 = (masterInstance, false, e, w2) ->
    run h (MakeLocalMaster sched target) w
    = ((instance, e), w2,
       [ Ev (ReadTopologyInstance target) (instance, None);
         Ev (ReadInstance (MasterKey instance)) (masterInstance, false, e) ]).
Proof.
  intros IM W h w w1 w2 sched target instance masterInstance e H1 H2.
  unfold MakeLocalMaster. cbn. rewrite H1. cbn. rewrite H2. cbn.
  destruct e; reflexivity.
Qed.

Lemma MakeLocalMaster_unknown_master_witness :
  Sim.handler Sim.noFault (ReadTopologyInstance Sim.kM) Sim.chain
  = (Sim.get Sim.kM (Sim.nodes Sim.chain), None, Sim.chain)
  /\ snd (result (run (Sim.handler Sim.noFault)
                    (@MakeLocalMaster Sim.methods [] Sim.kM) Sim.chain))
     = None.
Proof.
  split; [reflexivity |].
  rewrite (@MakeLocalMaster_unknown_master Sim.methods _
             (Sim.handler Sim.noFault) Sim.chain Sim.chain Sim.chain []
             Sim.kM (Sim.get Sim.kM (Sim.nodes Sim.chain))
             (Sim.NewInstance Sim.noKey) None eq_refl eq_refl).
  reflexivity.
Defined.

(** ** Siblings and masters *)

Lemma KeyEquals_sym (a b : InstanceKey) : KeyEquals a b = KeyEquals b a.
Proof.
  unfold KeyEquals. now rewrite String.eqb_sym, Z.eqb_sym.
Qed.

(** X19.  [InstancesAreSiblings] is symmetric, never holds between
    instances with the same key, and holds for any two replicas with
    different keys that [InstanceIsMasterOf] gives the same master. *)
Theorem siblings_of_one_master :
  forall (IM : InstanceMethods) (a b m : Instance),
    InstancesAreSiblings a b = InstancesAreSiblings b a
    /\ (KeyEquals (Key a) (Key b) = true -> InstancesAreSiblings a b = false)
    /\ (InstanceIsMasterOf m a = true -> InstanceIsMasterOf m b = true ->
        KeyEquals (Key a) (Key b) = false ->
        InstancesAreSiblings a b = true).
Proof.
  intros IM a b m. unfold InstancesAreSiblings, InstanceIsMasterOf.
  rewrite (KeyEquals_sym (Key b) (Key a)),
    (KeyEquals_sym (MasterKey b) (MasterKey a)).
  repeat split.
  - destruct (IsSlave a), (IsSlave b); reflexivity.
  - intros ->. destruct (IsSlave a), (IsSlave b); reflexivity.
  - intros Ha Hb ->.
    destruct (IsSlave a); [| discriminate Ha].
    destruct (IsSlave b); [| discriminate Hb]. cbn in *.
    destruct (KeyEquals (Key m) (Key a)); [discriminate Ha |].
    destruct (KeyEquals (Key m) (Key b)); [discriminate Hb |].
    apply KeyEquals_eq in Ha, Hb. rewrite <- Ha, <- Hb.
    apply KeyEquals_refl.
Qed.

Lemma siblings_of_one_master_witness :
  @InstanceIsMasterOf Sim.methods (Sim.get Sim.kU (Sim.nodes Sim.chain))
    (Sim.get Sim.kT (Sim.nodes Sim.chain)) = true
  /\ @InstancesAreSiblings Sim.methods (Sim.get Sim.kT (Sim.nodes Sim.chain))
       (Sim.get Sim.kS (Sim.nodes Sim.chain)) = true.
Proof.
  split; [reflexivity |].
  exact (proj2 (proj2 (@siblings_of_one_master Sim.methods
                         (Sim.get Sim.kT (Sim.nodes Sim.chain))
                         (Sim.get Sim.kS (Sim.nodes Sim.chain))
                         (Sim.get Sim.kU (Sim.nodes Sim.chain))))
           eq_refl eq_refl eq_refl).
Defined.

(** ** The tree drawn by [AsciiTopology] *)

Lemma slavesOf_mapSet (replicationMap : ReplicationMap) (k q : Ptr)
    (v : list Ptr) :
  slavesOf (mapSet replicationMap k v) q
  = if Nat.eqb k q then v else slavesOf replicationMap q.
Proof.
  unfold slavesOf, mapSet, mapGet. cbn. destruct (Nat.eqb k q); reflexivity.
Qed.

Lemma rootOf_bound (instancesMap : list (InstanceKey * Ptr))
    (pre : list Instance) (r : Ptr) :
  rootOf instancesMap pre (Some r) -> r < List.length pre.
Proof.
  intros (a & i & b & -> & <- & _). rewrite length_app. cbn. lia.
Qed.

Lemma investigateStep_TreeInv (instancesMap : list (InstanceKey * Ptr))
    (pre : list Instance) (st : ReplicationMap * option Ptr) (i : Instance) :
  TreeInv instancesMap pre st ->
  TreeInv instancesMap (pre ++ [i])
    (investigateStep instancesMap st (List.length pre, i)).
Proof.
  destruct st as [replicationMap root].
  intros (Hbound & Hparent & Hroot & Hlast). cbn in *.
  unfold investigateStep. cbn [snd fst].
  destruct (mapGet KeyEquals instancesMap (MasterKey i)) as [master |] eqn:E;
    repeat split; cbn [fst snd].
  - intros p c. rewrite slavesOf_mapSet, length_app. cbn.
    destruct (Nat.eqb master p).
    + intros Hc. apply in_app_or in Hc. destruct Hc as [Hc | [<- | []]].
      * apply Hbound in Hc. lia.
      * lia.
    + intros Hc. apply Hbound in Hc. lia.
  - intros p q c. rewrite !slavesOf_mapSet.
    destruct (Nat.eqb master p) eqn:Ep, (Nat.eqb master q) eqn:Eq;
      try apply Nat.eqb_eq in Ep; try apply Nat.eqb_eq in Eq.
    + congruence.
    + intros Hp Hq. apply in_app_or in Hp. destruct Hp as [Hp | [<- | []]].
      * rewrite <- Ep. now apply Hparent with (c := c).
      * apply Hbound in Hq. lia.
    + intros Hp Hq. apply in_app_or in Hq. destruct Hq as [Hq | [<- | []]].
      * rewrite <- Eq. now apply Hparent with (c := c).
      * apply Hbound in Hp. lia.
    + apply Hparent.
  - intros r p -> Hr. rewrite slavesOf_mapSet in Hr.
    destruct (Nat.eqb master p).
    + apply in_app_or in Hr. destruct Hr as [Hr | [<- | []]].
      * now apply (Hroot r master).
      * apply rootOf_bound in Hlast. lia.
    + now apply (Hroot r p).
  - destruct root as [r |]; cbn in *.
    + destruct Hlast as (a & j & b & -> & Hlen & Hj & Hb).
      exists a, j, (b ++ [i])%list. repeat split; auto.
      * now rewrite <- app_assoc.
      * intros k Hk. apply in_app_or in Hk. destruct Hk as [Hk | [<- | []]].
        -- now apply Hb.
        -- rewrite E. discriminate.
    + intros k Hk. apply in_app_or in Hk. destruct Hk as [Hk | [<- | []]].
      * now apply Hlast.
      * rewrite E. discriminate.
  - intros p c Hc. apply Hbound in Hc. rewrite length_app. cbn. lia.
  - exact Hparent.
  - intros r p [= <-] Hr. apply Hbound in Hr. lia.
  - exists pre, i, (@nil Instance). repeat split; auto.
Qed.

Lemma investigateSlaves_fold_TreeInv (instancesMap : list (InstanceKey * Ptr))
    (l pre : list Instance) (st : ReplicationMap * option Ptr) :
  TreeInv instancesMap pre st ->
  TreeInv instancesMap (pre ++ l)
    (fold_left (investigateStep instancesMap)
       (combine (seq (List.length pre) (List.length l)) l) st).
Proof.
  revert pre st. induction l as [| i l IH]; intros pre st H.
  - now rewrite app_nil_r.
  - cbn [List.length seq combine fold_left].
    replace (pre ++ i :: l)%list with ((pre ++ [i]) ++ l)%list
      by now rewrite <- app_assoc.
    replace (S (List.length pre)) with (List.length (pre ++ [i]))
      by (rewrite length_app; cbn; lia).
    apply IH. now apply investigateStep_TreeInv.
Qed.

(** The second loop builds a forest over the positions of the slice. *)
Lemma investigateSlaves_TreeInv (instances : list Instance)
    (instancesMap : list (InstanceKey * Ptr)) :
  TreeInv instancesMap instances (investigateSlaves instances instancesMap).
Proof.
  change (investigateSlaves instances instancesMap)
    with (fold_left (investigateStep instancesMap)
            (combine (seq (List.length (@nil Instance)) (List.length instances))
               instances) ([], None)).
  apply (@investigateSlaves_fold_TreeInv instancesMap instances []).
  repeat split; cbn; try contradiction; intros; discriminate.
Qed.

(** *** No instance is drawn twice on a branch *)

Section Branches.

Variable replicationMap : ReplicationMap.
Variable n : nat.
Variable root : Ptr.
Hypothesis Hbound : forall p c, In c (slavesOf replicationMap p) -> c < n.
Hypothesis Hparent :
  forall p q c, In c (slavesOf replicationMap p) ->
                In c (slavesOf replicationMap q) -> p = q.
Hypothesis Hroot : forall p, ~ In root (slavesOf replicationMap p).
Hypothesis Hvalid : root < n.

Lemma hangsBelow_unique (l l' : list Ptr) (x : Ptr) :
  hangsBelow replicationMap x l root -> hangsBelow replicationMap x l' root ->
  l = l'.
Proof.
  revert x l'. induction l as [| y l IH]; intros x [| y' l']; cbn.
  - reflexivity.
  - intros -> [H _]. now apply Hroot in H.
  - intros [H _] ->. now apply Hroot in H.
  - intros [Hy Hl] [Hy' Hl'].
    assert (y = y') as <- by now apply Hparent with (c := x).
    f_equal. now apply IH with (x := y).
Qed.

Lemma hangsBelow_suffix (l1 l2 : list Ptr) (x y : Ptr) :
  hangsBelow replicationMap x (l1 ++ y :: l2) root ->
  hangsBelow replicationMap y l2 root.
Proof.
  revert x. induction l1 as [| z l1 IH]; intros x; cbn.
  - now intros [_ H].
  - intros [_ H]. now apply IH with (x := z).
Qed.

Lemma hangsBelow_fresh (l : list Ptr) (x : Ptr) :
  hangsBelow replicationMap x l root -> ~ In x l.
Proof.
  intros H Hin. apply in_split in Hin. destruct Hin as (l1 & l2 & ->).
  pose proof (hangsBelow_suffix _ _ _ _ H) as H2.
  pose proof (hangsBelow_unique _ _ _ H H2) as Heq.
  apply (f_equal (@List.length Ptr)) in Heq.
  rewrite length_app in Heq. cbn in Heq. lia.
Qed.

Lemma hangsBelow_NoDup (l : list Ptr) (x : Ptr) :
  hangsBelow replicationMap x l root -> NoDup (x :: l).
Proof.
  revert x. induction l as [| y l IH]; intros x H.
  - constructor; [intros [] | constructor].
  - constructor; [now apply hangsBelow_fresh |].
    apply IH. now destruct H.
Qed.

Lemma hangsBelow_bound (l : list Ptr) (x : Ptr) :
  hangsBelow replicationMap x l root -> Forall (fun p => p < n) (x :: l).
Proof.
  revert x. induction l as [| y l IH]; intros x H; cbn in H.
  - subst x. now repeat constructor.
  - destruct H as [Hx Hl]. constructor; [now apply Hbound in Hx |].
    now apply IH.
Qed.

Lemma hangsBelow_depth (l : list Ptr) (x : Ptr) :
  hangsBelow replicationMap x l root -> List.length l < n.
Proof.
  intros H.
  assert (Hle : List.length (x :: l) <= List.length (seq 0 n)).
  { apply NoDup_incl_length; [now apply hangsBelow_NoDup |].
    intros p Hp. apply in_seq.
    pose proof (hangsBelow_bound _ _ H) as HF.
    rewrite Forall_forall in HF. apply HF in Hp. lia. }
  rewrite length_seq in Hle. cbn in Hle. lia.
Qed.

End Branches.

Lemma appendSlaves_Returned (draw : Ptr -> Outcome (list string))
    (slaves : list Ptr) (result : list string) :
  (forall slave, In slave slaves -> exists lines, draw slave = Returned lines) ->
  exists lines,
    fold_left (appendSlaves draw) slaves (Returned result)
    = Returned (result ++ lines)%list.
Proof.
  revert result. induction slaves as [| slave slaves IH]; intros result H.
  - exists []. cbn. now rewrite app_nil_r.
  - destruct (H slave (or_introl eq_refl)) as [lines Hl].
    destruct (IH (result ++ lines)%list) as [rest Hrest].
    { intros s Hs. apply H. now right. }
    exists (lines ++ rest)%list. cbn. rewrite Hl, Hrest.
    now rewrite app_assoc.
Qed.

(** With fuel for the instances that are not yet on the branch, the
    recursion returns, and its first line is the entry of the instance. *)
Lemma getAsciiTopologyEntry_returns (IM : InstanceMethods)
    (instances : list Instance) (replicationMap : ReplicationMap)
    (root : Ptr) :
  (forall p c, In c (slavesOf replicationMap p) -> c < List.length instances) ->
  (forall p q c, In c (slavesOf replicationMap p) ->
                 In c (slavesOf replicationMap q) -> p = q) ->
  (forall p, ~ In root (slavesOf replicationMap p)) ->
  root < List.length instances ->
  forall (fuel depth : nat) (x : Ptr) (l : list Ptr),
    hangsBelow replicationMap x l root ->
    List.length instances <= fuel + List.length l ->
    exists this lines,
      nth_error instances x = Some this
      /\ getAsciiTopologyEntry fuel instances depth (Some x) replicationMap
         = Returned
             (((if Nat.ltb 0 depth then
                  Repeat " " ((depth - 1) * 2)
                    ++ (if SlaveRunning this then "+ " else "- ")
                else "") ++ DisplayString (Key this)) :: lines).
Proof.
  intros Hbound Hparent Hroot Hvalid.
  induction fuel as [| fuel IH]; intros depth x l Hl Hfuel.
  - pose proof (@hangsBelow_depth _ _ _ Hbound Hparent Hroot Hvalid _ _ Hl).
    lia.
  - pose proof (@hangsBelow_bound _ _ _ Hbound Hvalid _ _ Hl) as Hx.
    apply Forall_inv in Hx.
    destruct (nth_error instances x) as [this |] eqn:E;
      [| apply nth_error_None in E; lia].
    destruct (@appendSlaves_Returned
                (fun slave => getAsciiTopologyEntry fuel instances (depth + 1)
                                (Some slave) replicationMap)
                (slavesOf replicationMap x)
                [(if Nat.ltb 0 depth then
                    Repeat " " ((depth - 1) * 2)
                      ++ (if SlaveRunning this then "+ " else "- ")
                  else "") ++ DisplayString (Key this)])
      as [lines Hlines].
    { intros slave Hs.
      destruct (IH (depth + 1) slave (x :: l)) as (c & lines & _ & Hc).
      - now split.
      - cbn. lia.
      - eexists. exact Hc. }
    exists this, lines. split; [reflexivity |].
    cbn [getAsciiTopologyEntry]. rewrite E. exact Hlines.
Qed.

Lemma buildInstancesMap_fold_unknown (l : list (Ptr * Instance))
    (acc : list (InstanceKey * Ptr)) (k : InstanceKey) :
  (forall pi, In pi l -> KeyEquals (Key (snd pi)) k = false) ->
  mapGet KeyEquals acc k = None ->
  mapGet KeyEquals
    (fold_left (fun instancesMap pi => mapSet instancesMap (Key (snd pi)) (fst pi))
       l acc) k = None.
Proof.
  revert acc. induction l as [| pi l IH]; intros acc H Hacc; cbn.
  - exact Hacc.
  - apply IH; [intros pj Hj; apply H; now right |].
    unfold mapGet, mapSet in *. cbn.
    now rewrite (H pi (or_introl eq_refl)).
Qed.

(** The instances map knows a key exactly when an instance has it. *)
Lemma buildInstancesMap_unknown (instances : list Instance) (k : InstanceKey) :
  mapGet KeyEquals (buildInstancesMap instances) k = None
  <-> forall j, In j instances -> KeyEquals (Key j) k = false.
Proof.
  split.
  - intros H j Hj. destruct (KeyEquals (Key j) k) eqn:E; [| reflexivity].
    now destruct (@buildInstancesMap_known instances j k Hj E).
  - intros H. apply buildInstancesMap_fold_unknown; [| reflexivity].
    intros [p j] Hin. apply H. now apply indexed_In in Hin.
Qed.

(** X20.  When some instance of the cluster has a master outside the
    cluster, [AsciiTopology] returns a drawing and a nil error: it neither
    dereferences nil nor recurses without end.  The drawing starts with the
    display string of the root, and the root is the last instance of the
    answer whose master is outside the cluster. *)
Theorem AsciiTopology_draws_last_root :
  forall (IM : InstanceMethods) W (h : Handler W) (w w' : W)
         (clusterName : string) (instances : list Instance),
    h (ReadClusterInstances clusterName) w = (instances, None, w') ->
    (exists i, In i instances
               /\ forall j, In j instances ->
                            KeyEquals (Key j) (MasterKey i) = false) ->
    exists before root after lines,
      instances = (before ++ root :: after)%list
      /\ (forall j, In j instances ->
                    KeyEquals (Key j) (MasterKey root) = false)
      /\ (forall i, In i after ->
                    exists j, In j instances
                              /\ KeyEquals (Key j) (MasterKey i) = true)
      /\ run h (AsciiTopology clusterName) w
         = (Returned (Join (DisplayString (Key root) :: lines)
                        (String "010"%char ""), None),
            w', [Ev (ReadClusterInstances clusterName) (instances, None)]).
Proof.
  intros IM W h w w' clusterName instances Hread (i & Hi & Hunknown).
  pose proof (investigateSlaves_TreeInv instances (buildInstancesMap instances))
    as (Hbound & Hparent & Hroot & Hlast).
  assert (Hsome : snd (investigateSlaves instances (buildInstancesMap instances))
                  <> None).
  { apply investigateSlaves_root. exists i. split; [exact Hi |].
    now apply buildInstancesMap_unknown. }
  destruct (investigateSlaves instances (buildInstancesMap instances))
    as [replicationMap [r |]] eqn:Est; [clear Hsome | now destruct Hsome].
  cbn [fst snd] in *.
  pose proof (rootOf_bound Hlast) as Hvalid.
  destruct Hlast as (before & root & after & Heq & Hlen & Hr & Hafter).
  destruct (@getAsciiTopologyEntry_returns IM instances replicationMap r
              Hbound Hparent (fun p => Hroot r p eq_refl) Hvalid
              (S (List.length instances)) 0 r [] eq_refl)
    as (this & lines & Hthis & Hdraw); [cbn; lia |].
  assert (this = root) as ->.
  { rewrite Heq, nth_error_app2, <- Hlen, Nat.sub_diag in Hthis by lia.
    now injection Hthis. }
  exists before, root, after, lines. repeat split.
  - exact Heq.
  - now apply buildInstancesMap_unknown.
  - intros k Hk.
    destruct (existsb (fun j => KeyEquals (Key j) (MasterKey k)) instances)
      eqn:E.
    + apply existsb_exists in E. exact E.
    + destruct (Hafter k Hk). apply buildInstancesMap_unknown.
      intros j Hj.
      destruct (KeyEquals (Key j) (MasterKey k)) eqn:Ej; [| reflexivity].
      assert (existsb (fun j => KeyEquals (Key j) (MasterKey k)) instances
              = true) by (apply existsb_exists; eauto).
      congruence.
  - unfold AsciiTopology.
    cbn -[getAsciiTopologyEntry investigateSlaves buildInstancesMap].
    rewrite Hread.
    cbn -[getAsciiTopologyEntry investigateSlaves buildInstancesMap].
    rewrite Est, Hdraw. reflexivity.
Qed.

Lemma AsciiTopology_draws_last_root_witness :
  (exists i, In i (Sim.nodes Sim.chain)
             /\ forall j, In j (Sim.nodes Sim.chain) ->
                          KeyEquals (Key j) (MasterKey i) = false)
  /\ exists root lines,
       result (run (Sim.handler Sim.noFault) (@AsciiTopology Sim.methods "c")
                 Sim.chain)
       = Returned (Join (DisplayString (Key root) :: lines)
                     (String "010"%char ""), None).
Proof.
  assert (H : exists i, In i (Sim.nodes Sim.chain)
                /\ forall j, In j (Sim.nodes Sim.chain) ->
                             KeyEquals (Key j) (MasterKey i) = false).
  { exists (Sim.get Sim.kM (Sim.nodes Sim.chain)). split; [now left |].
    intros j [<- | [<- | [<- | [<- | []]]]]; reflexivity. }
  split; [exact H |].
  destruct (@AsciiTopology_draws_last_root Sim.methods _
              (Sim.handler Sim.noFault) Sim.chain Sim.chain "c"
              (Sim.nodes Sim.chain) eq_refl H)
    as (before & root & after & lines & _ & _ & _ & Hrun).
  exists root, lines. now rewrite Hrun.
Defined.
